(** * Contacts backend: users, e-mail verification, tokens and contacts

    A shallow embedding of the request handlers of [src/api/auth.py], the
    user repository of [src/repository/users.py], the contact service of
    [src/services/contacts.py] and the validators of [src/schemas.py].

    The relational store is a pair of tables (lists of rows, in insertion
    order) with the constraints of the initial migration
    ([alembic/versions/aaeab1c5bffb_init.py]).  Handlers run in a small
    state-and-exception monad over that store: Python's [raise] is [raise],
    [try ... except Exception] is [try_except]. *)

From Stdlib Require Import ZArith List String Ascii Bool Lia.
Import ListNotations.
Open Scope string_scope.
Open Scope Z_scope.

Set Implicit Arguments.

(* ------------------------------------------------------------------ *)
(** ** Dates ([datetime.date]) *)

Record date := mkDate { year : Z; month : Z; day : Z }.

(** [a > b] on dates: lexicographic on year, month, day. *)
Definition date_gtb (a b : date) : bool :=
  (year b <? year a)
  || ((year a =? year b)
      && ((month b <? month a)
          || ((month a =? month b) && (day b <? day a)))).

(* ------------------------------------------------------------------ *)
(** ** Rows of the two tables (migration [upgrade]) *)

(** Instants ([datetime]) are seconds on the clock of the [World].
    [is_verified] is written only with [False] at creation and [True] at
    confirmation, so it is a [bool]. *)
Record User := mkUser {
  user_id_ : Z;
  username : string;
  email : string;
  hashed_password : string;
  created_at : Z;
  is_verified : bool;
  avatar_url : option string
}.

Record Contact := mkContact {
  contact_id : Z;
  c_name : string;
  c_surname : string;
  c_email : string;
  c_phone : string;
  c_birthday : date;
  c_created_at : Z;
  c_updated_at : option Z;
  c_info : option string;
  c_user_id : Z
}.

(** Background work queued with [background_tasks.add_task]. *)
Inductive Task :=
| send_email (to_email to_username base_url : string).

(** The store, the sequences behind the integer primary keys, the queue of
    background tasks and the clock the handlers read. *)
Record World := mkWorld {
  users : list User;
  contacts : list Contact;
  next_user_id : Z;
  next_contact_id : Z;
  background_tasks : list Task;
  now : Z;
  today : date
}.

Definition set_users (us : list User) (w : World) : World :=
  mkWorld us (contacts w) (next_user_id w) (next_contact_id w)
          (background_tasks w) (now w) (today w).

Definition set_contacts (cs : list Contact) (w : World) : World :=
  mkWorld (users w) cs (next_user_id w) (next_contact_id w)
          (background_tasks w) (now w) (today w).

(* ------------------------------------------------------------------ *)
(** ** Exceptions and the handler monad *)

Inductive exn :=
| HTTPException (status_code : Z) (detail : string)
| MultipleResultsFound
| IntegrityError
| InvalidToken
| RequestValidationError.

Inductive result (A : Type) :=
| Return (a : A)
| Raise (e : exn).
Arguments Return {A} a.
Arguments Raise {A} e.

Definition M (A : Type) : Type := World -> result A * World.

Definition ret {A} (a : A) : M A := fun w => (Return a, w).
Definition raise {A} (e : exn) : M A := fun w => (Raise e, w).
Definition bind {A B} (m : M A) (k : A -> M B) : M B :=
  fun w => match m w with
           | (Return a, w') => k a w'
           | (Raise e, w') => (Raise e, w')
           end.
Definition get_world : M World := fun w => (Return w, w).
Definition put_world (w' : World) : M unit := fun _ => (Return tt, w').

(** [try: body except Exception as e: handler e] *)
Definition try_except {A} (body : M A) (handler : exn -> M A) : M A :=
  fun w => match body w with
           | (Return a, w') => (Return a, w')
           | (Raise e, w') => handler e w'
           end.

Declare Scope handler_scope.
Delimit Scope handler_scope with handler.
Notation "x <- m ;; k" := (bind m (fun x => k))
  (at level 100, m at next level, right associativity) : handler_scope.
Notation "m ;;; k" := (bind m (fun _ => k))
  (at level 100, right associativity) : handler_scope.
Open Scope handler_scope.

Definition HTTP_200_OK := 200.
Definition HTTP_201_CREATED := 201.
Definition HTTP_400_BAD_REQUEST := 400.
Definition HTTP_401_UNAUTHORIZED := 401.
Definition HTTP_404_NOT_FOUND := 404.
Definition HTTP_409_CONFLICT := 409.
Definition HTTP_422_UNPROCESSABLE_ENTITY := 422.
Definition HTTP_500_INTERNAL_SERVER_ERROR := 500.

Definition add_task (t : Task) : M unit :=
  fun w => (Return tt,
            mkWorld (users w) (contacts w) (next_user_id w) (next_contact_id w)
                    (background_tasks w ++ [t]) (now w) (today w)).

(** [result.scalar_one_or_none()] *)
Definition scalar_one_or_none {A} (rows : list A) : M (option A) :=
  match rows with
  | [] => ret None
  | [r] => ret (Some r)
  | _ :: _ :: _ => raise MultipleResultsFound
  end.

(* ------------------------------------------------------------------ *)
(** ** [UserRepository] ([src/repository/users.py]) *)

Record UserCreate := mkUserCreate {
  uc_username : string;
  uc_email : string;
  uc_password : string
}.

Module UserRepository.

Definition get_user_by_id (uid : Z) : M (option User) :=
  w <- get_world ;;
  scalar_one_or_none (filter (fun u => user_id_ u =? uid) (users w)).

Definition get_user_by_username (name : string) : M (option User) :=
  w <- get_world ;;
  scalar_one_or_none (filter (fun u => String.eqb (username u) name) (users w)).

Definition get_user_by_email (mail : string) : M (option User) :=
  w <- get_world ;;
  scalar_one_or_none (filter (fun u => String.eqb (email u) mail) (users w)).

(** The two [UniqueConstraint]s of table [users]. *)
Definition violates_unique (u : User) (us : list User) : bool :=
  existsb (fun v => String.eqb (email v) (email u)
                    || String.eqb (username v) (username u)) us.

(** [self.db.add(db_user); await self.db.commit(); await self.db.refresh(db_user)]
    with the [except: rollback; raise] around it: a commit that fails
    leaves the table as it was. *)
Definition create_user (user : UserCreate) (avatar : option string) : M User :=
  w <- get_world ;;
  let db_user := mkUser (next_user_id w) (uc_username user) (uc_email user)
                        (uc_password user) (now w) false avatar in
  if violates_unique db_user (users w)
  then raise IntegrityError
  else
    put_world (mkWorld (users w ++ [db_user]) (contacts w)
                       (next_user_id w + 1) (next_contact_id w)
                       (background_tasks w) (now w) (today w)) ;;;
    ret db_user.

(** [UPDATE users SET ... WHERE id = user.id] for the one attribute the
    caller assigned. *)
Definition update_row (uid : Z) (f : User -> User) (us : list User) : list User :=
  map (fun v => if user_id_ v =? uid then f v else v) us.

Definition set_is_verified (b : bool) (u : User) : User :=
  mkUser (user_id_ u) (username u) (email u) (hashed_password u)
         (created_at u) b (avatar_url u).

Definition set_avatar_url (url : option string) (u : User) : User :=
  mkUser (user_id_ u) (username u) (email u) (hashed_password u)
         (created_at u) (is_verified u) url.

Definition confirmed_email (mail : string) : M unit :=
  user <- get_user_by_email mail ;;
  match user with
  | Some u =>
      w <- get_world ;;
      put_world (set_users (update_row (user_id_ u) (set_is_verified true) (users w)) w)
  | None => ret tt
  end.

(** Returns [None] where the annotation promises a [User]: the result
    type is [option User]. *)
Definition update_avatar_url (mail url : string) : M (option User) :=
  user <- get_user_by_email mail ;;
  match user with
  | Some u =>
      w <- get_world ;;
      put_world (set_users (update_row (user_id_ u) (set_avatar_url (Some url)) (users w)) w) ;;;
      (* await self.db.refresh(user) *)
      w' <- get_world ;;
      refreshed <- scalar_one_or_none (filter (fun v => user_id_ v =? user_id_ u) (users w')) ;;
      ret refreshed
  | None => ret None
  end.

End UserRepository.

(* ------------------------------------------------------------------ *)
(** ** Configuration ([src/conf/config.py]) *)

Record Settings := mkSettings {
  JWT_SECRET : string;
  JWT_ALGORITHM : string;
  JWT_EXPIRATION_SECONDS : Z;
  JWT_REFRESH_EXPIRATION_SECONDS : Z
}.

(* ------------------------------------------------------------------ *)
(** ** Tokens *)

Record Claims := mkClaims { sub : string }.

(** A token string, by its parts: the payload (the claims and the expiry
    instant) and the signature over it.  The header is fixed by the
    configuration. *)
Record TokenString := mkTokenString {
  tok_claims : Claims;
  tok_exp : Z;
  tok_signature : string
}.

(** [schemas.Token], [schemas.RequestEmail] and the two fields the login
    handler reads of [OAuth2PasswordRequestForm]. *)
Record Token := mkToken { access_token : TokenString; token_type : string }.
Record RequestEmail := mkRequestEmail { re_email : string }.
Record OAuth2PasswordRequestForm := mkForm {
  form_username : string;
  form_password : string
}.

(** ** HTTP responses *)

(** [schemas.User]: the response model of [/auth/register].  It has no
    field for the password hash.  [schemas.ContactResponse] has the fields
    of a [Contact] row. *)
Record UserResponse := mkUserResponse {
  r_id : Z;
  r_username : string;
  r_email : string;
  r_is_verified : bool;
  r_avatar_url : option string;
  r_contacts : list Contact
}.

Inductive Body :=
| JsonUser (u : UserResponse)
| JsonToken (t : Token)
| JsonMessage (message : string)
| JsonContact (c : Contact)
| JsonContacts (cs : list Contact)
| JsonDetail (detail : string)
| PlainText (text : string).

Record Response := mkResponse { status : Z; body : Body }.

(** What the framework sends for a handler's outcome: the route's status
    code and rendered value, the status and detail of an [HTTPException],
    400 for a token that does not decode, 500 for anything else. *)
Definition respond {A} (ok_status : Z) (render : A -> World -> Body)
           (out : result A * World) : Response :=
  match out with
  | (Return a, w') => mkResponse ok_status (render a w')
  | (Raise (HTTPException s d), _) => mkResponse s (JsonDetail d)
  | (Raise InvalidToken, _) => mkResponse HTTP_400_BAD_REQUEST (JsonDetail "Invalid token")
  | (Raise RequestValidationError, _) =>
      mkResponse HTTP_422_UNPROCESSABLE_ENTITY (JsonDetail "Validation error")
  | (Raise _, _) => mkResponse HTTP_500_INTERNAL_SERVER_ERROR (PlainText "Internal Server Error")
  end.

Definition render_user (u : User) (w : World) : Body :=
  JsonUser (mkUserResponse (user_id_ u) (username u) (email u) (is_verified u)
                           (avatar_url u)
                           (filter (fun c => c_user_id c =? user_id_ u) (contacts w))).

Definition render_message (m : string) (_ : World) : Body := JsonMessage m.
Definition render_token (t : Token) (_ : World) : Body := JsonToken t.

(** [UserService] of [src/services/users.py] is not among the sources; the
    User Service of the spec orchestrates the User Store, so each method
    hands its call to the [UserRepository]. *)
Module UserService.

(** Modelled from the spec: [UserService.get_user_by_email], missing from
    the sources, is the User Store's lookup by e-mail. *)
Definition get_user_by_email := UserRepository.get_user_by_email.

(** Modelled from the spec: [UserService.get_user_by_username], missing
    from the sources, is the User Store's lookup by username. *)
Definition get_user_by_username := UserRepository.get_user_by_username.

(** Modelled from the spec: [UserService.create_user], missing from the
    sources, persists the user through the User Store; [avatar_for] is
    the avatar it may look up for the new user's e-mail. *)
Definition create_user (avatar_for : string -> option string)
           (body : UserCreate) : M User :=
  UserRepository.create_user body (avatar_for (uc_email body)).

(** Modelled from the spec: [UserService.confirm_email], missing from the
    sources, is the User Store's mark-verified. *)
Definition confirm_email := UserRepository.confirmed_email.

End UserService.

Section Auth.

(** [settings], the signing primitive behind the token library, the
    password hasher [Hash] and the avatar lookup are collaborators of
    the handlers; nothing is assumed about them. *)
Variable settings : Settings.
Variable sign : string -> string -> Claims -> Z -> string.
Variable get_password_hash : string -> string.
Variable verify_password : string -> string -> bool.
Variable avatar_for : string -> option string.

(** Modelled from the spec: the Token Service of [src/services/auth.py],
    which is not among the sources.  [issue] signs the claims together
    with the expiry instant [at_time + ttl]; [decode] fails with
    [InvalidToken] when the signature does not match or the expiry
    instant has been reached. *)
Definition issue (at_time : Z) (claims : Claims) (ttl_seconds : Z) : TokenString :=
  let exp := at_time + ttl_seconds in
  mkTokenString claims exp (sign (JWT_SECRET settings) (JWT_ALGORITHM settings) claims exp).

(** Modelled from the spec: the signature check of [decode]; the token
    library of [src/services/auth.py] is not among the sources. *)
Definition signature_valid (t : TokenString) : bool :=
  String.eqb (tok_signature t)
             (sign (JWT_SECRET settings) (JWT_ALGORITHM settings) (tok_claims t) (tok_exp t)).

(** Modelled from the spec: [decode] of the Token Service
    ([src/services/auth.py], not among the sources): the claims, or
    [InvalidToken] if the signature is invalid or the token has expired. *)
Definition decode (at_time : Z) (t : TokenString) : result Claims :=
  if signature_valid t
  then if at_time <? tok_exp t then Return (tok_claims t) else Raise InvalidToken
  else Raise InvalidToken.

(** Modelled from the spec: [create_access_token] of
    [src/services/auth.py] (not among the sources) issues a token with the
    access-token ttl of the configuration. *)
Definition create_access_token (data : Claims) : M TokenString :=
  w <- get_world ;;
  ret (issue (now w) data (JWT_EXPIRATION_SECONDS settings)).

(** Modelled from the spec: [get_email_from_token] of
    [src/services/auth.py] (not among the sources) decodes a token to the
    e-mail in its subject. *)
Definition get_email_from_token (token : TokenString) : M string :=
  w <- get_world ;;
  match decode (now w) token with
  | Return c => ret (sub c)
  | Raise e => raise e
  end.


(** *** The handlers of [src/api/auth.py] *)

Definition register_user (user : UserCreate) (base_url : string) : M User :=
  try_except
    (existing_user_by_email <- UserService.get_user_by_email (uc_email user) ;;
     match existing_user_by_email with
     | Some _ =>
         raise (HTTPException HTTP_409_CONFLICT "User with this email already exists")
     | None =>
         existing_user_by_username <- UserService.get_user_by_username (uc_username user) ;;
         match existing_user_by_username with
         | Some _ =>
             raise (HTTPException HTTP_409_CONFLICT
                                  "User with this username already exists")
         | None =>
             let user := mkUserCreate (uc_username user) (uc_email user)
                                      (get_password_hash (uc_password user)) in
             new_user <- UserService.create_user avatar_for user ;;
             add_task (send_email (email new_user) (username new_user) base_url) ;;;
             ret new_user
         end
     end)
    (fun e =>
       raise (HTTPException HTTP_500_INTERNAL_SERVER_ERROR "Internal server error")).

(** The [WWW-Authenticate] header of the first 401 is not modelled. *)
Definition login_user (form_data : OAuth2PasswordRequestForm) : M Token :=
  db_user <- UserService.get_user_by_username (form_username form_data) ;;
  match db_user with
  | None =>
      raise (HTTPException HTTP_401_UNAUTHORIZED "Incorrect login or password")
  | Some u =>
      if negb (verify_password (form_password form_data) (hashed_password u))
      then raise (HTTPException HTTP_401_UNAUTHORIZED "Incorrect login or password")
      else if negb (is_verified u)
      then raise (HTTPException HTTP_401_UNAUTHORIZED "Email not verified")
      else
        access_token <- create_access_token (mkClaims (username u)) ;;
        ret (mkToken access_token "bearer")
  end.

Definition confirmed_email (token : TokenString) : M string :=
  email <- get_email_from_token token ;;
  user <- UserService.get_user_by_email email ;;
  match user with
  | None => raise (HTTPException HTTP_400_BAD_REQUEST "Verification error")
  | Some u =>
      if is_verified u
      then ret "Your email is already verified"
      else
        UserService.confirm_email email ;;;
        ret "Email verified successfully"
  end.

Definition request_email (body : RequestEmail) (base_url : string) : M string :=
  user <- UserService.get_user_by_email (re_email body) ;;
  if match user with Some u => is_verified u | None => false end
  then ret "Your email is already verified"
  else
    match user with
    | Some u => add_task (send_email (email u) (username u) base_url)
    | None => ret tt
    end ;;;
    ret "Check your email for verification".

(** The routes: decorator status code and response model around each
    handler. *)
Definition post_register (user : UserCreate) (base_url : string) (w : World) : Response :=
  respond HTTP_201_CREATED render_user (register_user user base_url w).

Definition post_login (form_data : OAuth2PasswordRequestForm) (w : World) : Response :=
  respond HTTP_200_OK render_token (login_user form_data w).

Definition get_confirmed_email (token : TokenString) (w : World) : Response :=
  respond HTTP_200_OK render_message (confirmed_email token w).

Definition post_request_email (body : RequestEmail) (base_url : string) (w : World)
  : Response :=
  respond HTTP_200_OK render_message (request_email body base_url w).

End Auth.

(* ------------------------------------------------------------------ *)
(** ** Request validation ([src/schemas.py]) *)

(** *** The fragment of [re] that [phone_regex] uses

    A pattern is a sequence of items over one-character atoms.  Strings are
    sequences of code points below 256, on which [\d] is exactly [0-9]. *)

Inductive atom :=
| Lit (c : ascii)
| Range (lo hi : ascii)
| Digit.

Inductive item :=
| Bol                                  (* ^ *)
| Eol                                  (* $ *)
| One (a : atom)
| Optional (a : atom)                  (* a? *)
| Repeat (a : atom) (lo hi : nat).     (* a{lo,hi} *)

Definition in_range (lo hi c : ascii) : bool :=
  (nat_of_ascii lo <=? nat_of_ascii c)%nat && (nat_of_ascii c <=? nat_of_ascii hi)%nat.

Definition atom_matches (a : atom) (c : ascii) : bool :=
  match a with
  | Lit x => Ascii.eqb x c
  | Range lo hi => in_range lo hi c
  | Digit => in_range "0" "9" c
  end.

Definition newline : ascii := ascii_of_nat 10.

(** Without [re.MULTILINE], [$] holds at the end of the string and just
    before a newline that ends the string. *)
Definition at_eol (s : string) : bool :=
  match s with
  | EmptyString => true
  | String c EmptyString => Ascii.eqb c newline
  | _ => false
  end.

(** [a{lo,hi}] followed by the continuation [k]: greedy, backtracking. *)
Fixpoint match_repeat (a : atom) (k : bool -> string -> bool)
         (lo hi : nat) (pos0 : bool) (s : string) : bool :=
  match hi with
  | O => Nat.eqb lo 0 && k pos0 s
  | S hi' =>
      match s with
      | String c s' => atom_matches a c && match_repeat a k (Nat.pred lo) hi' false s'
      | EmptyString => false
      end
      || (Nat.eqb lo 0 && k pos0 s)
  end.

(** Does the pattern match a prefix of [s]?  [pos0] tells whether the
    position is the start of the subject. *)
Fixpoint match_items (p : list item) (pos0 : bool) (s : string) : bool :=
  match p with
  | [] => true
  | Bol :: p' => pos0 && match_items p' pos0 s
  | Eol :: p' => at_eol s && match_items p' pos0 s
  | One a :: p' =>
      match s with
      | String c s' => atom_matches a c && match_items p' false s'
      | EmptyString => false
      end
  | Optional a :: p' =>
      match s with
      | String c s' => atom_matches a c && match_items p' false s'
      | EmptyString => false
      end
      || match_items p' pos0 s
  | Repeat a lo hi :: p' => match_repeat a (match_items p') lo hi pos0 s
  end.

(** [re.match(pattern, value)] as a truth value. *)
Definition re_match (pattern : list item) (value : string) : bool :=
  match_items pattern true value.

(** [phone_regex = r"^\+?[1-9]\d{1,14}$"] *)
Definition phone_regex : list item :=
  [Bol; Optional (Lit "+"); One (Range "1" "9"); Repeat Digit 1 14; Eol].

Record ContactModel := mkContactModel {
  m_name : string;
  m_surname : string;
  m_email : string;
  m_phone : string;
  m_birthday : date;
  m_info : option string;
  m_user_id : Z
}.

Definition len (s : string) : Z := Z.of_nat (String.length s).

(** [Field(min_length=, max_length=)] *)
Definition length_between (lo hi : Z) (s : string) : bool :=
  (lo <=? len s) && (len s <=? hi).

(** [@validator("phone")]: [true] when the validator returns the value,
    [false] when it raises [ValueError]. *)
Definition validate_phone (value : string) : bool :=
  re_match phone_regex value.

(** [@validator("birthday")], against [date.today()]. *)
Definition validate_birthday (today_ : date) (value : date) : bool :=
  negb (date_gtb value today_).

(** The field [phone]: its [Field] constraints and its validator. *)
Definition phone_field_ok (value : string) : bool :=
  length_between 7 20 value && validate_phone value.

Definition birthday_field_ok (today_ : date) (value : date) : bool :=
  validate_birthday today_ value.

Section Validation.

(** [EmailStr]: the syntax check of the e-mail validation library. *)
Variable email_syntax_ok : string -> bool.

(** Validation of a whole [ContactModel] body. *)
Definition ContactModel_ok (today_ : date) (b : ContactModel) : bool :=
  length_between 2 50 (m_name b)
  && length_between 2 50 (m_surname b)
  && (length_between 7 100 (m_email b) && email_syntax_ok (m_email b))
  && phone_field_ok (m_phone b)
  && birthday_field_ok today_ (m_birthday b)
  && match m_info b with
     | None => true
     | Some i => len i <=? 500
     end.

End Validation.

(* ------------------------------------------------------------------ *)
(** ** Calendar arithmetic ([date + timedelta(days=n)]) *)

(** Days since 1970-01-01 of a proleptic Gregorian date, and back. *)
Definition days_from_civil (d : date) : Z :=
  let y := if month d <=? 2 then year d - 1 else year d in
  let era := y / 400 in
  let yoe := y - era * 400 in
  let mp := if month d <=? 2 then month d + 9 else month d - 3 in
  let doy := (153 * mp + 2) / 5 + day d - 1 in
  let doe := yoe * 365 + yoe / 4 - yoe / 100 + doy in
  era * 146097 + doe - 719468.

Definition civil_from_days (z : Z) : date :=
  let z := z + 719468 in
  let era := z / 146097 in
  let doe := z - era * 146097 in
  let yoe := (doe - doe / 1460 + doe / 36524 - doe / 146096) / 365 in
  let doy := doe - (365 * yoe + yoe / 4 - yoe / 100) in
  let mp := (5 * doy + 2) / 153 in
  let d := doy - (153 * mp + 2) / 5 + 1 in
  let m := if mp <? 10 then mp + 3 else mp - 9 in
  mkDate (if m <=? 2 then yoe + era * 400 + 1 else yoe + era * 400) m d.

Definition add_days (d : date) (n : Z) : date :=
  civil_from_days (days_from_civil d + n).

Definition same_month_day (a b : date) : bool :=
  (month a =? month b) && (day a =? day b).

(** The offsets [0, 1, ..., days] of the window; none when [days < 0]. *)
Definition window_offsets (days : Z) : list Z :=
  if days <? 0 then [] else map Z.of_nat (seq 0 (S (Z.to_nat days))).

(* ------------------------------------------------------------------ *)
(** ** Contacts *)

(** Modelled from the spec: the Contact Store, [ContactRepository] of
    [src/repository/contacts.py], which is not among the sources.  The
    duplicate check is global (the owner it receives does not narrow it);
    by-id access is scoped to the owner; an update replaces the fields of
    the body and stamps [updated_at]; a removal deletes the row; the
    birthday query keeps the owner's contacts whose month and day are
    those of one of the dates [today, ..., today + days].  Writes respect
    the [UniqueConstraint]s of table [contacts] of the migration. *)
Module ContactRepository.

(** Modelled from the spec: owner scoping of the missing
    [ContactRepository]: the contact's [user_id] is the requester's id. *)
Definition owned_by (user : User) (c : Contact) : bool :=
  c_user_id c =? user_id_ user.

(** Modelled from the spec: [ContactRepository.is_contact_exists], missing
    from the sources: a contact with the same e-mail or phone exists,
    globally, not just for this owner. *)
Definition is_contact_exists (mail phone : string) (user : User) : M bool :=
  w <- get_world ;;
  ret (existsb (fun c => String.eqb (c_email c) mail || String.eqb (c_phone c) phone)
               (contacts w)).

(** The two [UniqueConstraint]s of table [contacts]. *)
Definition same_email_or_phone (c x : Contact) : bool :=
  String.eqb (c_email x) (c_email c) || String.eqb (c_phone x) (c_phone c).

(** A new row against every row; a changed row against every other row. *)
Definition insert_violates_unique (c : Contact) (cs : list Contact) : bool :=
  existsb (same_email_or_phone c) cs.

Definition update_violates_unique (c : Contact) (cs : list Contact) : bool :=
  existsb (fun x => negb (contact_id x =? contact_id c) && same_email_or_phone c x) cs.

(** Modelled from the spec: [ContactRepository.create_contact], missing
    from the sources, persists the body with owner linkage. *)
Definition create_contact (body : ContactModel) (user : User) : M Contact :=
  w <- get_world ;;
  let c := mkContact (next_contact_id w) (m_name body) (m_surname body)
                     (m_email body) (m_phone body) (m_birthday body)
                     (now w) None (m_info body) (user_id_ user) in
  if insert_violates_unique c (contacts w)
  then raise IntegrityError
  else
    put_world (mkWorld (users w) (contacts w ++ [c]) (next_user_id w)
                       (next_contact_id w + 1) (background_tasks w)
                       (now w) (today w)) ;;;
    ret c.

(** Modelled from the spec: [ContactRepository.get_contact_by_id], missing
    from the sources: the contact with that id under that owner. *)
Definition get_contact_by_id (cid : Z) (user : User) : M (option Contact) :=
  w <- get_world ;;
  ret (find (fun c => (contact_id c =? cid) && owned_by user c) (contacts w)).

(** Modelled from the spec: what an update writes (missing
    [ContactRepository.update_contact]): all mutable fields from the body
    and a fresh [updated_at]; key, creation time and owner stay. *)
Definition apply_body (body : ContactModel) (stamp : Z) (c : Contact) : Contact :=
  mkContact (contact_id c) (m_name body) (m_surname body) (m_email body)
            (m_phone body) (m_birthday body) (c_created_at c) (Some stamp)
            (m_info body) (c_user_id c).

(** Modelled from the spec: [ContactRepository.update_contact], missing
    from the sources. *)
Definition update_contact (cid : Z) (body : ContactModel) (user : User)
  : M (option Contact) :=
  contact <- get_contact_by_id cid user ;;
  match contact with
  | Some c =>
      w <- get_world ;;
      let c' := apply_body body (now w) c in
      if update_violates_unique c' (contacts w)
      then raise IntegrityError
      else
        put_world (set_contacts
                     (map (fun x => if contact_id x =? contact_id c then c' else x)
                          (contacts w)) w) ;;;
        ret (Some c')
  | None => ret None
  end.

(** Modelled from the spec: [ContactRepository.remove_contact], missing
    from the sources: a hard delete of the owner's contact. *)
Definition remove_contact (cid : Z) (user : User) : M (option Contact) :=
  contact <- get_contact_by_id cid user ;;
  match contact with
  | Some c =>
      w <- get_world ;;
      put_world (set_contacts
                   (filter (fun x => negb (contact_id x =? contact_id c)) (contacts w))
                   w) ;;;
      ret (Some c)
  | None => ret None
  end.

(** Modelled from the spec: the window test of the missing
    [ContactRepository.get_upcoming_birthdays]: the birthday's month and
    day are those of a date in [today, today + days], both ends included. *)
Definition birthday_in_window (today_ : date) (days : Z) (birthday : date) : bool :=
  existsb (fun k => same_month_day (add_days today_ k) birthday) (window_offsets days).

(** Modelled from the spec: [ContactRepository.get_upcoming_birthdays],
    missing from the sources. *)
Definition get_upcoming_birthdays (days : Z) (user : User) : M (list Contact) :=
  w <- get_world ;;
  ret (filter (fun c => owned_by user c
                        && birthday_in_window (today w) days (c_birthday c))
              (contacts w)).

End ContactRepository.

(** [ContactService] ([src/services/contacts.py]) *)
Module ContactService.

Definition create_contact (body : ContactModel) (user : User) : M Contact :=
  exists_ <- ContactRepository.is_contact_exists (m_email body) (m_phone body) user ;;
  if exists_ : bool
  then raise (HTTPException HTTP_400_BAD_REQUEST
                ("Contact with '" ++ m_email body ++ "' email or '" ++ m_phone body
                 ++ "' phone number already exists."))
  else ContactRepository.create_contact body user.

Definition get_contact (cid : Z) (user : User) : M Contact :=
  contact <- ContactRepository.get_contact_by_id cid user ;;
  match contact with
  | None => raise (HTTPException HTTP_404_NOT_FOUND "Contact not found")
  | Some c => ret c
  end.

Definition update_contact (cid : Z) (body : ContactModel) (user : User) : M Contact :=
  updated_contact <- ContactRepository.update_contact cid body user ;;
  match updated_contact with
  | None => raise (HTTPException HTTP_404_NOT_FOUND "Contact not found")
  | Some c => ret c
  end.

Definition remove_contact (cid : Z) (user : User) : M Contact :=
  deleted_contact <- ContactRepository.remove_contact cid user ;;
  match deleted_contact with
  | None => raise (HTTPException HTTP_404_NOT_FOUND "Contact not found")
  | Some c => ret c
  end.

Definition get_upcoming_birthdays (days : Z) (user : User) : M (list Contact) :=
  ContactRepository.get_upcoming_birthdays days user.

End ContactService.

(** Modelled from the spec: the contact routes of the HTTP layer, which are
    not among the sources, validate the body and only then call the
    service. *)
Definition validated (email_syntax_ok : string -> bool) (raw : ContactModel)
  : M ContactModel :=
  w <- get_world ;;
  if ContactModel_ok email_syntax_ok (today w) raw
  then ret raw
  else raise RequestValidationError.

(** Modelled from the spec: the missing route that creates a contact. *)
Definition create_contact_route (email_syntax_ok : string -> bool)
           (raw : ContactModel) (user : User) : M Contact :=
  body <- validated email_syntax_ok raw ;;
  ContactService.create_contact body user.

(** Modelled from the spec: the missing route that updates a contact. *)
Definition update_contact_route (email_syntax_ok : string -> bool)
           (cid : Z) (raw : ContactModel) (user : User) : M Contact :=
  body <- validated email_syntax_ok raw ;;
  ContactService.update_contact cid body user.

(* ------------------------------------------------------------------ *)
(** ** The exposed operations as a transition system *)

Section Exposed.

Variable settings : Settings.
Variable sign : string -> string -> Claims -> Z -> string.
Variable get_password_hash : string -> string.
Variable verify_password : string -> string -> bool.
Variable avatar_for : string -> option string.
Variable email_syntax_ok : string -> bool.

Inductive Request :=
| Register (user : UserCreate) (base_url : string)
| Login (form_data : OAuth2PasswordRequestForm)
| ConfirmEmail (token : TokenString)
| ResendEmail (body : RequestEmail) (base_url : string)
| UpdateAvatar (mail url : string)
| CreateContact (raw : ContactModel) (user : User)
| GetContact (cid : Z) (user : User)
| UpdateContact (cid : Z) (raw : ContactModel) (user : User)
| RemoveContact (cid : Z) (user : User)
| UpcomingBirthdays (days : Z) (user : User).

(** The store after a request has been served. *)
Definition serve (r : Request) (w : World) : World :=
  match r with
  | Register user base_url =>
      snd (register_user get_password_hash avatar_for user base_url w)
  | Login form_data => snd (login_user settings sign verify_password form_data w)
  | ConfirmEmail token => snd (confirmed_email settings sign token w)
  | ResendEmail body base_url => snd (request_email body base_url w)
  | UpdateAvatar mail url => snd (UserRepository.update_avatar_url mail url w)
  | CreateContact raw user => snd (create_contact_route email_syntax_ok raw user w)
  | GetContact cid user => snd (ContactService.get_contact cid user w)
  | UpdateContact cid raw user =>
      snd (update_contact_route email_syntax_ok cid raw user w)
  | RemoveContact cid user => snd (ContactService.remove_contact cid user w)
  | UpcomingBirthdays days user =>
      snd (ContactService.get_upcoming_birthdays days user w)
  end.

(** One step of the system: a request is served, or time passes. *)
Inductive step : World -> World -> Prop :=
| step_serve (r : Request) (w : World) : step w (serve r w)
| step_clock (w : World) (now' : Z) (today' : date) :
    step w (mkWorld (users w) (contacts w) (next_user_id w) (next_contact_id w)
                    (background_tasks w) now' today').

Inductive steps : World -> World -> Prop :=
| steps_refl (w : World) : steps w w
| steps_cons (w1 w2 w3 : World) : step w1 w2 -> steps w2 w3 -> steps w1 w3.

End Exposed.

(** The user with primary key [uid] is present and verified. *)
Definition verified_in (w : World) (uid : Z) : Prop :=
  exists u, In u (users w) /\ user_id_ u = uid /\ is_verified u = true.

(** [a > b] on dates, as a proposition. *)
Definition date_after (a b : date) : Prop :=
  year b < year a
  \/ (year a = year b
      /\ (month b < month a \/ (month a = month b /\ day b < day a))).

(** The language of [phone_regex], read off the pattern: an optional [+],
    a digit [1-9], one to fourteen digits, and then the end of the string,
    which [$] also finds before one last newline. *)
Fixpoint all_digits (s : string) : bool :=
  match s with
  | EmptyString => true
  | String c s' => in_range "0" "9" c && all_digits s'
  end.

Definition international_format (value : string) : Prop :=
  exists plus first rest tail,
    value = plus ++ String first (rest ++ tail)
    /\ (plus = "" \/ plus = "+")
    /\ in_range "1" "9" first = true
    /\ all_digits rest = true
    /\ (1 <= String.length rest <= 14)%nat
    /\ (tail = "" \/ tail = String newline "").


(** Some contact, of any owner, has this e-mail or this phone. *)
Definition contact_taken (w : World) (mail phone : string) : Prop :=
  exists c, In c (contacts w) /\ (c_email c = mail \/ c_phone c = phone).


Definition duplicate (body : ContactModel) : exn :=
  HTTPException HTTP_400_BAD_REQUEST
    ("Contact with '" ++ m_email body ++ "' email or '" ++ m_phone body
     ++ "' phone number already exists.").

(* ------------------------------------------------------------------ *)
(** ** Fixtures used to exercise the theorems on concrete inputs *)

Definition example_settings : Settings := mkSettings "s3cret" "HS256" 3600 86400.

Definition example_sign (secret alg : string) (c : Claims) (exp : Z) : string :=
  secret ++ "/" ++ alg ++ "/" ++ sub c ++ "/" ++ (if exp <? 0 then "-" else "+").

Definition example_hash (p : string) : string := "hash:" ++ p.
Definition example_verify (p h : string) : bool := String.eqb h (example_hash p).
Definition example_avatar (_ : string) : option string := None.
Definition example_email_ok (_ : string) : bool := true.

Definition alice : User :=
  mkUser 1 "alice" "alice@x.com" (example_hash "secret1") 1000 true None.

Definition carol : User :=
  mkUser 2 "carol" "carol@x.com" (example_hash "secret2") 1500 false None.

Definition bob_lee : Contact :=
  mkContact 1 "Bob" "Lee" "bob@x.com" "+15551234567" (mkDate 1990 1 3)
            1100 None None 1.

Definition dan_roe : Contact :=
  mkContact 2 "Dan" "Roe" "dan@x.com" "+15557654321" (mkDate 1985 1 6)
            1200 None None 1.

Definition eve_poe : Contact :=
  mkContact 3 "Eve" "Poe" "eve@x.com" "+15550000001" (mkDate 1970 1 3)
            1600 None None 2.

Definition example_world : World :=
  mkWorld [alice; carol] [bob_lee; dan_roe; eve_poe] 3 4 [] 2000 (mkDate 2024 12 29).

(* ------------------------------------------------------------------ *)
(** ** The schema of the initial migration
       ([alembic/versions/aaeab1c5bffb_init.py]) *)

Inductive ColumnType :=
| Integer
| String_ (length : option nat)        (* sa.String(length=n), sa.String() *)
| DateTime
| Date_
| Boolean.

Record Column := mkColumn {
  col_name : string;
  col_type : ColumnType;
  col_nullable : bool
}.

(** [ForeignKeyConstraint(['user_id'], ['users.id'], ondelete='CASCADE')]
    keeps the referenced table and column apart. *)
Inductive TableConstraint :=
| ForeignKeyConstraint (cols : list string) (ref_table ref_col : string)
                       (ondelete : string)
| PrimaryKeyConstraint (cols : list string)
| UniqueConstraint (cols : list string).

Record Table := mkTable {
  table_name : string;
  table_columns : list Column;
  table_constraints : list TableConstraint
}.

Definition users_table : Table :=
  mkTable "users"
    [ mkColumn "id" Integer false;
      mkColumn "username" (String_ (Some 50%nat)) false;
      mkColumn "email" (String_ (Some 100%nat)) false;
      mkColumn "hashed_password" (String_ None) false;
      mkColumn "created_at" DateTime true;
      mkColumn "is_verified" Boolean true;
      mkColumn "avatar_url" (String_ None) true ]
    [ PrimaryKeyConstraint ["id"];
      UniqueConstraint ["email"];
      UniqueConstraint ["username"] ].

Definition contacts_table : Table :=
  mkTable "contacts"
    [ mkColumn "id" Integer false;
      mkColumn "name" (String_ (Some 50%nat)) false;
      mkColumn "surname" (String_ (Some 50%nat)) false;
      mkColumn "email" (String_ (Some 100%nat)) false;
      mkColumn "phone" (String_ (Some 20%nat)) false;
      mkColumn "birthday" Date_ false;
      mkColumn "created_at" DateTime true;
      mkColumn "updated_at" DateTime true;
      mkColumn "info" (String_ (Some 500%nat)) true;
      mkColumn "user_id" Integer false ]
    [ ForeignKeyConstraint ["user_id"] "users" "id" "CASCADE";
      PrimaryKeyConstraint ["id"];
      UniqueConstraint ["email"];
      UniqueConstraint ["phone"] ].

(** The tables of a database, in creation order. *)
Definition Schema := list Table.

Definition has_table (name : string) (s : Schema) : bool :=
  existsb (fun t => String.eqb (table_name t) name) s.

Definition references (name : string) (t : Table) : bool :=
  existsb (fun c => match c with
                    | ForeignKeyConstraint _ ref_table _ _ => String.eqb ref_table name
                    | _ => false
                    end)
          (table_constraints t).

(** [op.create_table]: refused when the name is taken or a foreign key
    points at a table that is not there. *)
Definition create_table (t : Table) (s : Schema) : option Schema :=
  if has_table (table_name t) s then None
  else if forallb (fun c => match c with
                            | ForeignKeyConstraint _ ref_table _ _ =>
                                has_table ref_table s
                                || String.eqb ref_table (table_name t)
                            | _ => true
                            end)
                  (table_constraints t)
  then Some (s ++ [t])%list
  else None.

(** [op.drop_table]: refused when the table is not there or another table
    still references it. *)
Definition drop_table (name : string) (s : Schema) : option Schema :=
  if negb (has_table name s) then None
  else if existsb (fun t => negb (String.eqb (table_name t) name) && references name t) s
  then None
  else Some (filter (fun t => negb (String.eqb (table_name t) name)) s).

Definition upgrade (s : Schema) : option Schema :=
  match create_table users_table s with
  | Some s1 => create_table contacts_table s1
  | None => None
  end.

Definition downgrade (s : Schema) : option Schema :=
  match drop_table "contacts" s with
  | Some s1 => drop_table "users" s1
  | None => None
  end.

(** The length a column allows, and whether a value respects it. *)
Definition column_limit (t : Table) (name : string) : option nat :=
  match find (fun c => String.eqb (col_name c) name) (table_columns t) with
  | Some c => match col_type c with
              | String_ l => l
              | _ => None
              end
  | None => None
  end.

Definition fits (t : Table) (name : string) (value : string) : Prop :=
  match column_limit t name with
  | Some n => (String.length value <= n)%nat
  | None => True
  end.

(** The constraints of table [users] on the rows of a [World]: primary
    key, the two unique columns, and keys below the next value of the
    sequence. *)
Definition users_wf (w : World) : Prop :=
  NoDup (map user_id_ (users w))
  /\ NoDup (map email (users w))
  /\ NoDup (map username (users w))
  /\ Forall (fun u => user_id_ u < next_user_id w) (users w).

(** [schemas.UserCreate] *)
Definition UserCreate_ok (email_syntax_ok : string -> bool) (u : UserCreate) : bool :=
  length_between 3 50 (uc_username u)
  && email_syntax_ok (uc_email u)
  && (6 <=? len (uc_password u)).

(* ------------------------------------------------------------------ *)
(** ** The database URL ([src/conf/config.py], [src/database/database.py]) *)

(** The database fields of [Settings]. *)
Record DatabaseSettings := mkDatabaseSettings {
  DB_NAME : string;
  DB_USER : string;
  DB_PASSWORD : string;
  DB_HOST : string;
  DB_PORT : string
}.

(** [Settings.database_url] *)
Definition database_url (s : DatabaseSettings) : string :=
  "postgresql://" ++ DB_USER s ++ ":" ++ DB_PASSWORD s ++ "@" ++ DB_HOST s
  ++ ":" ++ DB_PORT s ++ "/" ++ DB_NAME s.

(** [str.replace(old, new)] for a non-empty [old]: every occurrence, left
    to right, without overlap.  [skip] counts the characters of a replaced
    occurrence still to pass over. *)
Fixpoint replace_from (old new : string) (skip : nat) (s : string) : string :=
  match s with
  | EmptyString => EmptyString
  | String c s' =>
      match skip with
      | S k => replace_from old new k s'
      | O =>
          if prefix old s
          then new ++ replace_from old new (Nat.pred (String.length old)) s'
          else String c (replace_from old new 0 s')
      end
  end.

(** With an empty [old], [new] goes before every character and at the end. *)
Fixpoint intersperse (new s : string) : string :=
  match s with
  | EmptyString => new
  | String c s' => new ++ String c (intersperse new s')
  end.

Definition str_replace (s old new : string) : string :=
  match old with
  | EmptyString => intersperse new s
  | String _ _ => replace_from old new 0 s
  end.

(** [SQLALCHEMY_DATABASE_URL] *)
Definition SQLALCHEMY_DATABASE_URL (s : DatabaseSettings) : string :=
  str_replace (database_url s) "postgresql://" "postgresql+asyncpg://".

(** [old] occurs somewhere in [s]. *)
Fixpoint occurs_in (old s : string) : bool :=
  match s with
  | EmptyString => prefix old EmptyString
  | String _ s' => prefix old s || occurs_in old s'
  end.

(** [a <= b] on dates, as a proposition. *)
Definition date_le (a b : date) : Prop := ~ date_after a b.

(** How often a value occurs in a column. *)
Definition occurrences (column : list string) (value : string) : nat :=
  count_occ string_dec column value.

(* ================================================================== *)
(** * Properties *)

Unset Implicit Arguments.

(** ** Queries on a table with a unique column *)

Section UniqueKey.

Variables (A K : Type) (key : A -> K) (eqb : K -> K -> bool).
Hypothesis eqb_spec : forall a b, eqb a b = true <-> a = b.

Lemma filter_key_absent (k : K) (l : list A) :
  (forall x, In x l -> key x <> k) ->
  filter (fun x => eqb (key x) k) l = [].
Proof.
  induction l as [|a l IH]; intros Hno; simpl; [reflexivity|].
  destruct (eqb (key a) k) eqn:E.
  - apply eqb_spec in E. exfalso. apply (Hno a); [left; reflexivity | exact E].
  - apply IH. intros x Hx. apply Hno. right. exact Hx.
Qed.

Lemma filter_key_unique (u : A) (l : list A) :
  NoDup (map key l) -> In u l ->
  filter (fun x => eqb (key x) (key u)) l = [u].
Proof.
  induction l as [|a l IH]; intros Hnd Hin; [destruct Hin|].
  simpl in Hnd. inversion Hnd as [|? ? Hnotin Hnd']; subst.
  simpl. destruct Hin as [-> | Hin].
  - replace (eqb (key u) (key u)) with true
      by (symmetry; apply eqb_spec; reflexivity).
    f_equal. apply filter_key_absent.
    intros x Hx Heq. apply Hnotin. rewrite <- Heq. apply in_map. exact Hx.
  - destruct (eqb (key a) (key u)) eqn:E.
    + apply eqb_spec in E. exfalso. apply Hnotin. rewrite E. apply in_map. exact Hin.
    + apply IH; assumption.
Qed.

Lemma filter_key_some_in (k : K) (l : list A) (u : A) (rest : list A) :
  filter (fun x => eqb (key x) k) l = u :: rest -> In u l /\ key u = k.
Proof.
  intros E.
  assert (H : In u (filter (fun x => eqb (key x) k) l)) by (rewrite E; left; reflexivity).
  apply filter_In in H. destruct H as [Hin Hk]. split; [exact Hin|].
  apply eqb_spec. exact Hk.
Qed.

Lemma unique_key_injective (u v : A) (l : list A) :
  NoDup (map key l) -> In u l -> In v l -> key u = key v -> u = v.
Proof.
  intros Hnd Hu Hv Hk.
  pose proof (filter_key_unique u l Hnd Hu) as Eu.
  pose proof (filter_key_unique v l Hnd Hv) as Ev.
  rewrite Hk in Eu. rewrite Eu in Ev. inversion Ev. reflexivity.
Qed.

End UniqueKey.

Ltac run_handler :=
  unfold bind, ret, raise, get_world, put_world, try_except, add_task; simpl.

(** ** Lookups of the user repository *)

Lemma get_user_by_email_absent (mail : string) (w : World) :
  (forall u, In u (users w) -> email u <> mail) ->
  UserRepository.get_user_by_email mail w = (Return None, w).
Proof.
  intros H. unfold UserRepository.get_user_by_email. run_handler.
  rewrite (filter_key_absent User string email String.eqb String.eqb_eq mail (users w) H).
  reflexivity.
Qed.

Lemma get_user_by_email_present (u : User) (w : World) :
  NoDup (map email (users w)) -> In u (users w) ->
  UserRepository.get_user_by_email (email u) w = (Return (Some u), w).
Proof.
  intros Hnd Hin. unfold UserRepository.get_user_by_email. run_handler.
  rewrite (filter_key_unique User string email String.eqb String.eqb_eq u (users w) Hnd Hin).
  reflexivity.
Qed.

Lemma get_user_by_username_absent (name : string) (w : World) :
  (forall u, In u (users w) -> username u <> name) ->
  UserRepository.get_user_by_username name w = (Return None, w).
Proof.
  intros H. unfold UserRepository.get_user_by_username. run_handler.
  rewrite (filter_key_absent User string username String.eqb String.eqb_eq name (users w) H).
  reflexivity.
Qed.

Lemma get_user_by_username_present (u : User) (w : World) :
  NoDup (map username (users w)) -> In u (users w) ->
  UserRepository.get_user_by_username (username u) w = (Return (Some u), w).
Proof.
  intros Hnd Hin. unfold UserRepository.get_user_by_username. run_handler.
  rewrite (filter_key_unique User string username String.eqb String.eqb_eq u (users w) Hnd Hin).
  reflexivity.
Qed.

(** A lookup never writes. *)
Lemma get_user_by_email_reads (mail : string) (w : World) :
  snd (UserRepository.get_user_by_email mail w) = w.
Proof.
  unfold UserRepository.get_user_by_email. run_handler.
  destruct (filter _ (users w)) as [|a [|b l]]; reflexivity.
Qed.

Lemma get_user_by_username_reads (name : string) (w : World) :
  snd (UserRepository.get_user_by_username name w) = w.
Proof.
  unfold UserRepository.get_user_by_username. run_handler.
  destruct (filter _ (users w)) as [|a [|b l]]; reflexivity.
Qed.

(** ** Registration *)

Section Registration.

Variable get_password_hash : string -> string.
Variable avatar_for : string -> option string.

Local Abbreviation run_register := (register_user get_password_hash avatar_for).
Local Abbreviation route_register := (post_register get_password_hash avatar_for).

(** Every exception of the body, the two 409s included, reaches the
    [except Exception] clause and leaves as a 500. *)
Lemma register_user_raises_only_500 (user : UserCreate) (base_url : string)
      (w : World) (e : exn) :
  fst (run_register user base_url w) = Raise e ->
  e = HTTPException HTTP_500_INTERNAL_SERVER_ERROR "Internal server error".
Proof.
  unfold register_user, try_except.
  match goal with |- context [match ?b with _ => _ end] => destruct b as [[a|e'] w'] end;
    simpl; intros H; [discriminate|].
  unfold raise in H. simpl in H. inversion H. reflexivity.
Qed.

Lemma post_register_never_409 (user : UserCreate) (base_url : string) (w : World) :
  status (route_register user base_url w) <> HTTP_409_CONFLICT.
Proof.
  unfold post_register, respond.
  destruct (run_register user base_url w) as [[a|e] w'] eqn:E; simpl.
  - discriminate.
  - assert (H : fst (run_register user base_url w) = Raise e) by (rewrite E; reflexivity).
    apply register_user_raises_only_500 in H. subst e. simpl. discriminate.
Qed.

(** An e-mail already in the table: the answer is 500, nothing is written. *)
Lemma register_user_existing_email (user : UserCreate) (base_url : string)
      (w : World) (u : User) :
  NoDup (map email (users w)) -> In u (users w) -> email u = uc_email user ->
  run_register user base_url w
  = (Raise (HTTPException HTTP_500_INTERNAL_SERVER_ERROR "Internal server error"), w).
Proof.
  intros Hnd Hin He.
  unfold register_user, try_except, bind at 1.
  unfold UserService.get_user_by_email. rewrite <- He.
  rewrite (get_user_by_email_present u w Hnd Hin). reflexivity.
Qed.

(** Neither the e-mail nor the username in the table: the user is stored
    unverified with the hash of the password, the verification mail is
    queued, and the new row is returned. *)
Lemma register_user_fresh (user : UserCreate) (base_url : string) (w : World) :
  (forall u, In u (users w) -> email u <> uc_email user) ->
  (forall u, In u (users w) -> username u <> uc_username user) ->
  let new_user := mkUser (next_user_id w) (uc_username user) (uc_email user)
                         (get_password_hash (uc_password user)) (now w) false
                         (avatar_for (uc_email user)) in
  run_register user base_url w
  = (Return new_user,
     mkWorld (users w ++ [new_user]) (contacts w) (next_user_id w + 1)
             (next_contact_id w)
             (background_tasks w
              ++ [send_email (uc_email user) (uc_username user) base_url])
             (now w) (today w)).
Proof.
  intros Hmail Hname new_user.
  assert (Hfree : UserRepository.violates_unique new_user (users w) = false).
  { unfold UserRepository.violates_unique. apply not_true_is_false. intros Hex.
    apply existsb_exists in Hex. destruct Hex as [v [Hv Hc]].
    apply orb_true_iff in Hc. destruct Hc as [Hc|Hc]; apply String.eqb_eq in Hc.
    - exact (Hmail v Hv Hc).
    - exact (Hname v Hv Hc). }
  unfold register_user, try_except, bind at 1.
  unfold UserService.get_user_by_email.
  rewrite (get_user_by_email_absent (uc_email user) w Hmail).
  unfold bind at 1. unfold UserService.get_user_by_username.
  rewrite (get_user_by_username_absent (uc_username user) w Hname).
  unfold UserService.create_user, UserRepository.create_user.
  run_handler. fold new_user. rewrite Hfree. reflexivity.
Qed.

(** The same, as the route answers it: 201 and the user rendered through
    the response model, which carries no password hash. *)
Lemma post_register_fresh (user : UserCreate) (base_url : string) (w : World) :
  (forall u, In u (users w) -> email u <> uc_email user) ->
  (forall u, In u (users w) -> username u <> uc_username user) ->
  route_register user base_url w
  = mkResponse HTTP_201_CREATED
      (JsonUser (mkUserResponse (next_user_id w) (uc_username user) (uc_email user)
                                false (avatar_for (uc_email user))
                                (filter (fun c => c_user_id c =? next_user_id w)
                                        (contacts w)))).
Proof.
  intros Hmail Hname. unfold post_register.
  rewrite (register_user_fresh user base_url w Hmail Hname). reflexivity.
Qed.

End Registration.

(** C1 (evaluated at the failing input): registering [bob] with the e-mail
    of the stored user [alice] is answered with status 500 and the detail
    "Internal server error", not with 409; the store is left as it was. *)
Theorem register_duplicate_email_answers_500 :
  post_register example_hash example_avatar
                (mkUserCreate "bob" "alice@x.com" "secret1") "http://testserver/"
                example_world
  = mkResponse 500 (JsonDetail "Internal server error")
  /\ snd (register_user example_hash example_avatar
                        (mkUserCreate "bob" "alice@x.com" "secret1")
                        "http://testserver/" example_world)
     = example_world.
Proof. split; vm_compute; reflexivity. Qed.

(** ** Login *)

Lemma user_by_key_decide (key : User -> string) (k : string) (l : list User) :
  (forall u, In u l -> key u <> k) \/ (exists u, In u l /\ key u = k).
Proof.
  destruct (filter (fun x => String.eqb (key x) k) l) as [|a rest] eqn:E.
  - left. intros u Hu Hk.
    assert (H : In u (filter (fun x => String.eqb (key x) k) l)).
    { apply filter_In. split; [exact Hu | apply String.eqb_eq; exact Hk]. }
    rewrite E in H. destruct H.
  - right. exists a.
    exact (filter_key_some_in User string key String.eqb String.eqb_eq k l a rest E).
Qed.

Section Login.

Variable settings : Settings.
Variable sign : string -> string -> Claims -> Z -> string.
Variable verify_password : string -> string -> bool.

Local Abbreviation run_login := (login_user settings sign verify_password).
Local Abbreviation route_login := (post_login settings sign verify_password).

Lemma login_user_absent (form_data : OAuth2PasswordRequestForm) (w : World) :
  (forall u, In u (users w) -> username u <> form_username form_data) ->
  run_login form_data w
  = (Raise (HTTPException HTTP_401_UNAUTHORIZED "Incorrect login or password"), w).
Proof.
  intros H. unfold login_user, bind at 1.
  unfold UserService.get_user_by_username.
  rewrite (get_user_by_username_absent _ w H). reflexivity.
Qed.

Lemma login_user_present (form_data : OAuth2PasswordRequestForm) (w : World) (u : User) :
  NoDup (map username (users w)) -> In u (users w) ->
  username u = form_username form_data ->
  run_login form_data w
  = if negb (verify_password (form_password form_data) (hashed_password u))
    then (Raise (HTTPException HTTP_401_UNAUTHORIZED "Incorrect login or password"), w)
    else if negb (is_verified u)
    then (Raise (HTTPException HTTP_401_UNAUTHORIZED "Email not verified"), w)
    else (Return (mkToken (issue settings sign (now w) (mkClaims (username u))
                                 (JWT_EXPIRATION_SECONDS settings)) "bearer"), w).
Proof.
  intros Hnd Hin Hname. unfold login_user, bind at 1.
  unfold UserService.get_user_by_username. rewrite <- Hname.
  rewrite (get_user_by_username_present u w Hnd Hin).
  destruct (verify_password _ _); simpl; [|reflexivity].
  destruct (is_verified u); reflexivity.
Qed.

(** C2: with usernames unique in the table, the login route answers 401
    exactly when no user has the submitted username, or the password does
    not verify against that user's stored hash, or that user is not
    verified; in every other case it answers 200 with a bearer token issued
    for the claims whose subject is that user's username, and it writes
    nothing. *)
Theorem login_unauthorized_iff (form_data : OAuth2PasswordRequestForm) (w : World) :
  NoDup (map username (users w)) ->
  (status (route_login form_data w) = HTTP_401_UNAUTHORIZED
   <-> ((forall u, In u (users w) -> username u <> form_username form_data)
        \/ exists u, In u (users w)
                     /\ username u = form_username form_data
                     /\ (verify_password (form_password form_data) (hashed_password u) = false
                         \/ is_verified u = false)))
  /\ (forall u, In u (users w) ->
                username u = form_username form_data ->
                verify_password (form_password form_data) (hashed_password u) = true ->
                is_verified u = true ->
                exists t,
                  run_login form_data w = (Return (mkToken t "bearer"), w)
                  /\ route_login form_data w
                     = mkResponse HTTP_200_OK (JsonToken (mkToken t "bearer"))
                  /\ t = issue settings sign (now w) (mkClaims (username u))
                               (JWT_EXPIRATION_SECONDS settings)
                  /\ sub (tok_claims t) = username u).
Proof.
  intros Hnd. split.
  - destruct (user_by_key_decide username (form_username form_data) (users w))
      as [Habs | [u [Hin Hname]]].
    + unfold post_login. rewrite (login_user_absent _ _ Habs). simpl.
      split; [intros _; left; exact Habs | reflexivity].
    + unfold post_login.
      rewrite (login_user_present _ _ u Hnd Hin Hname).
      destruct (verify_password (form_password form_data) (hashed_password u)) eqn:Ev;
        simpl.
      * destruct (is_verified u) eqn:Ef; simpl.
        -- split; [discriminate|].
           intros [Habs | [v [Hv [Hvn Hbad]]]].
           ++ exfalso. exact (Habs u Hin Hname).
           ++ assert (v = u) as ->.
              { apply (unique_key_injective User string username String.eqb
                         String.eqb_eq v u (users w) Hnd Hv Hin).
                congruence. }
              destruct Hbad; congruence.
        -- split; [|reflexivity]. intros _. right. exists u. auto.
      * split; [|reflexivity]. intros _. right. exists u. auto.
  - intros u Hin Hname Hv Hf. eexists.
    unfold post_login.
    rewrite (login_user_present _ _ u Hnd Hin Hname). rewrite Hv, Hf. simpl.
    repeat split; reflexivity.
Qed.

End Login.

(** On [example_world], [alice] logs in with her password and is given a
    token for subject ["alice"]. *)
Lemma login_unauthorized_iff_witness :
  NoDup (map username (users example_world))
  /\ exists t,
       login_user example_settings example_sign example_verify
                  (mkForm "alice" "secret1") example_world
       = (Return (mkToken t "bearer"), example_world)
       /\ sub (tok_claims t) = "alice".
Proof.
  assert (Hnd : NoDup (map username (users example_world))).
  { simpl. repeat constructor; simpl; intuition discriminate. }
  split; [exact Hnd|].
  destruct (login_unauthorized_iff example_settings example_sign example_verify
              (mkForm "alice" "secret1") example_world Hnd) as [_ Hok].
  destruct (Hok alice) as [t [E [_ [_ Hs]]]];
    [simpl; auto | reflexivity | reflexivity | reflexivity |].
  exists t. split; [exact E | exact Hs].
Defined.

(** ** Resending the verification mail *)

Lemma request_email_absent (body : RequestEmail) (base_url : string) (w : World) :
  (forall u, In u (users w) -> email u <> re_email body) ->
  request_email body base_url w = (Return "Check your email for verification", w).
Proof.
  intros H. unfold request_email, bind at 1. unfold UserService.get_user_by_email.
  rewrite (get_user_by_email_absent _ w H). reflexivity.
Qed.

Lemma request_email_present (body : RequestEmail) (base_url : string) (w : World)
      (u : User) :
  NoDup (map email (users w)) -> In u (users w) -> email u = re_email body ->
  request_email body base_url w
  = if is_verified u
    then (Return "Your email is already verified", w)
    else (Return "Check your email for verification",
          mkWorld (users w) (contacts w) (next_user_id w) (next_contact_id w)
                  (background_tasks w ++ [send_email (email u) (username u) base_url])
                  (now w) (today w)).
Proof.
  intros Hnd Hin He. unfold request_email, bind at 1.
  unfold UserService.get_user_by_email. rewrite <- He.
  rewrite (get_user_by_email_present u w Hnd Hin).
  destruct (is_verified u); reflexivity.
Qed.

(** C3 (as stated, refuted): [alice] is a verified user of
    [example_world] and nobody has the address [nobody@x.com], yet the two
    calls are answered with different bodies. *)
Lemma request_email_reveals_verified_account :
  (exists u, In u (users example_world) /\ email u = "alice@x.com")
  /\ (forall u, In u (users example_world) -> email u <> "nobody@x.com")
  /\ post_request_email (mkRequestEmail "alice@x.com") "http://testserver/" example_world
     <> post_request_email (mkRequestEmail "nobody@x.com") "http://testserver/"
                           example_world.
Proof.
  split; [exists alice; simpl; auto|].
  split.
  - simpl. intros u [<-|[<-|[]]]; simpl; discriminate.
  - vm_compute. discriminate.
Qed.

(** C3 (amended): with e-mails unique in the table, a call naming the
    address of no user is answered 200 "Check your email for verification"
    and writes nothing; a call naming the address of an existing user who is
    not yet verified gets the identical response and differs only by the
    verification mail it queues as background work; a call naming the
    address of a verified user is answered 200 "Your email is already
    verified" and writes nothing. *)
Theorem request_email_same_answer_unless_verified
        (known unknown : RequestEmail) (base_url : string) (w : World) (u : User) :
  NoDup (map email (users w)) ->
  In u (users w) -> email u = re_email known ->
  (forall v, In v (users w) -> email v <> re_email unknown) ->
  post_request_email unknown base_url w
  = mkResponse HTTP_200_OK (JsonMessage "Check your email for verification")
  /\ snd (request_email unknown base_url w) = w
  /\ (is_verified u = false ->
      post_request_email known base_url w = post_request_email unknown base_url w
      /\ snd (request_email known base_url w)
         = mkWorld (users w) (contacts w) (next_user_id w) (next_contact_id w)
                   (background_tasks w ++ [send_email (email u) (username u) base_url])
                   (now w) (today w))
  /\ (is_verified u = true ->
      post_request_email known base_url w
      = mkResponse HTTP_200_OK (JsonMessage "Your email is already verified")
      /\ snd (request_email known base_url w) = w).
Proof.
  intros Hnd Hin He Habs.
  unfold post_request_email.
  rewrite (request_email_absent unknown base_url w Habs).
  rewrite (request_email_present known base_url w u Hnd Hin He).
  destruct (is_verified u); simpl.
  - split; [reflexivity|]. split; [reflexivity|].
    split; intros Hflag; [discriminate Hflag | split; reflexivity].
  - split; [reflexivity|]. split; [reflexivity|].
    split; intros Hflag; [split; reflexivity | discriminate Hflag].
Qed.

(** On [example_world], asking again for [carol], who is not verified, and
    asking for an unknown address are answered alike. *)
Lemma request_email_same_answer_unless_verified_witness :
  post_request_email (mkRequestEmail "carol@x.com") "http://testserver/" example_world
  = post_request_email (mkRequestEmail "nobody@x.com") "http://testserver/" example_world.
Proof.
  assert (Hnd : NoDup (map email (users example_world))).
  { simpl. repeat constructor; simpl; intuition discriminate. }
  assert (Habs : forall v, In v (users example_world) -> email v <> "nobody@x.com").
  { simpl. intros v [<-|[<-|[]]]; simpl; discriminate. }
  destruct (request_email_same_answer_unless_verified
              (mkRequestEmail "carol@x.com") (mkRequestEmail "nobody@x.com")
              "http://testserver/" example_world carol Hnd
              (or_intror (or_introl eq_refl)) eq_refl Habs) as [_ [_ [Hsame _]]].
  destruct (Hsame eq_refl) as [E _]. exact E.
Defined.

(** ** Contacts: creation *)

Lemma is_contact_exists_true_iff (mail phone : string) (user : User) (w : World) :
  ContactRepository.is_contact_exists mail phone user w = (Return true, w)
  <-> contact_taken w mail phone.
Proof.
  unfold ContactRepository.is_contact_exists, contact_taken. run_handler.
  split.
  - intros H. inversion H as [Hex]. apply existsb_exists in Hex.
    destruct Hex as [c [Hin Hc]]. exists c. split; [exact Hin|].
    apply orb_true_iff in Hc. destruct Hc as [Hc|Hc]; apply String.eqb_eq in Hc; auto.
  - intros [c [Hin Hc]].
    replace (existsb _ (contacts w)) with true; [reflexivity|].
    symmetry. apply existsb_exists. exists c. split; [exact Hin|].
    apply orb_true_iff. destruct Hc as [Hc|Hc]; [left|right]; apply String.eqb_eq; exact Hc.
Qed.

Lemma is_contact_exists_reads (mail phone : string) (user : User) (w : World) :
  exists b, ContactRepository.is_contact_exists mail phone user w = (Return b, w).
Proof. eexists. unfold ContactRepository.is_contact_exists. run_handler. reflexivity. Qed.

(** C4: when some contact, whoever owns it, already has the e-mail or the
    phone of the body, creation raises the duplicate error (400) and the
    store is unchanged; when none has, the contact is appended to the table
    with a fresh key, the fields of the body and the requester as owner,
    and is returned. *)
Theorem create_contact_duplicate_or_persisted
        (body : ContactModel) (user : User) (w : World) :
  (contact_taken w (m_email body) (m_phone body) ->
   ContactService.create_contact body user w = (Raise (duplicate body), w))
  /\ (~ contact_taken w (m_email body) (m_phone body) ->
      let c := mkContact (next_contact_id w) (m_name body) (m_surname body)
                         (m_email body) (m_phone body) (m_birthday body)
                         (now w) None (m_info body) (user_id_ user) in
      ContactService.create_contact body user w
      = (Return c,
         mkWorld (users w) (contacts w ++ [c]) (next_user_id w)
                 (next_contact_id w + 1) (background_tasks w) (now w) (today w))
      /\ c_user_id c = user_id_ user).
Proof.
  split.
  - intros Htaken. unfold ContactService.create_contact, bind at 1.
    apply (is_contact_exists_true_iff _ _ user) in Htaken. rewrite Htaken. reflexivity.
  - intros Hfree c. split; [|reflexivity].
    assert (Hno : existsb (fun x => String.eqb (c_email x) (m_email body)
                                    || String.eqb (c_phone x) (m_phone body))
                          (contacts w) = false).
    { apply not_true_is_false. intros Hex. apply Hfree.
      apply existsb_exists in Hex. destruct Hex as [x [Hin Hx]]. exists x.
      split; [exact Hin|]. apply orb_true_iff in Hx.
      destruct Hx as [Hx|Hx]; apply String.eqb_eq in Hx; auto. }
    unfold ContactService.create_contact, ContactRepository.is_contact_exists,
      ContactRepository.create_contact, ContactRepository.insert_violates_unique,
      ContactRepository.same_email_or_phone.
    run_handler. rewrite Hno. simpl. rewrite Hno. reflexivity.
Qed.

(** On [example_world], [alice] cannot reuse the phone of [eve_poe], a
    contact of [carol], and can store a contact nobody has yet. *)
Lemma create_contact_duplicate_or_persisted_witness :
  c_user_id eve_poe <> user_id_ alice
  /\ fst (ContactService.create_contact
            (mkContactModel "Eva" "Po" "eva@x.com" "+15550000001" (mkDate 1991 2 3) None 1)
            alice example_world)
     = Raise (HTTPException 400
                "Contact with 'eva@x.com' email or '+15550000001' phone number already exists.")
  /\ exists c w',
       ContactService.create_contact
         (mkContactModel "Fay" "Moe" "fay@x.com" "+15559999999" (mkDate 1992 3 4) None 1)
         alice example_world = (Return c, w')
       /\ c_user_id c = 1 /\ contact_id c = 4.
Proof.
  split; [simpl; discriminate|].
  destruct (create_contact_duplicate_or_persisted
              (mkContactModel "Eva" "Po" "eva@x.com" "+15550000001" (mkDate 1991 2 3) None 1)
              alice example_world) as [Hdup _].
  destruct (create_contact_duplicate_or_persisted
              (mkContactModel "Fay" "Moe" "fay@x.com" "+15559999999" (mkDate 1992 3 4) None 1)
              alice example_world) as [_ Hnew].
  split.
  - rewrite Hdup; [reflexivity|].
    exists eve_poe. split; [simpl; auto | right; reflexivity].
  - destruct Hnew as [E _].
    + intros [c [Hin Hc]]. simpl in Hin.
      destruct Hin as [<-|[<-|[<-|[]]]]; destruct Hc as [Hc|Hc]; discriminate Hc.
    + eexists. eexists. split; [exact E|]. split; reflexivity.
Defined.

(** ** Contacts: access by id *)





Section ById.

Variables (cid : Z) (user : User) (w : World).






End ById.



(** ** E-mail confirmation *)

Lemma update_row_email (uid : Z) (f : User -> User) (us : list User) :
  (forall v, email (f v) = email v) ->
  map email (UserRepository.update_row uid f us) = map email us.
Proof.
  intros Hf. unfold UserRepository.update_row. rewrite map_map.
  apply map_ext. intros v. destruct (user_id_ v =? uid); [apply Hf | reflexivity].
Qed.

Lemma update_row_member (uid : Z) (f : User -> User) (us : list User) (u : User) :
  In u us -> user_id_ u = uid -> In (f u) (UserRepository.update_row uid f us).
Proof.
  intros Hin Hid. unfold UserRepository.update_row. apply in_map_iff.
  exists u. split; [|exact Hin]. rewrite Hid, Z.eqb_refl. reflexivity.
Qed.

Lemma update_row_others (uid : Z) (f : User -> User) (us : list User) (v : User) :
  In v us -> user_id_ v <> uid -> In v (UserRepository.update_row uid f us).
Proof.
  intros Hin Hid. unfold UserRepository.update_row. apply in_map_iff.
  exists v. split; [|exact Hin]. apply Z.eqb_neq in Hid. rewrite Hid. reflexivity.
Qed.

(** Rewriting rows keeps the verified users verified, as long as the
    rewrite keeps the key and does not clear the flag. *)
Lemma update_row_keeps_verified (uid : Z) (f : User -> User) (w : World) (k : Z) :
  (forall v, user_id_ (f v) = user_id_ v) ->
  (forall v, is_verified v = true -> is_verified (f v) = true) ->
  verified_in w k ->
  verified_in (set_users (UserRepository.update_row uid f (users w)) w) k.
Proof.
  intros Hid Hflag [u [Hin [Hk Hv]]]. unfold verified_in. simpl.
  destruct (user_id_ u =? uid) eqn:E.
  - exists (f u). split; [|split].
    + apply update_row_member; [exact Hin | apply Z.eqb_eq; exact E].
    + rewrite Hid. exact Hk.
    + apply Hflag. exact Hv.
  - exists u. split; [|split; assumption].
    apply update_row_others; [exact Hin | apply Z.eqb_neq; exact E].
Qed.

Section Confirmation.

Variable settings : Settings.
Variable sign : string -> string -> Claims -> Z -> string.

Local Abbreviation confirm := (confirmed_email settings sign).

Lemma get_email_from_token_valid (token : TokenString) (w : World) (c : Claims) :
  decode settings sign (now w) token = Return c ->
  get_email_from_token settings sign token w = (Return (sub c), w).
Proof.
  intros H. unfold get_email_from_token. run_handler. rewrite H. reflexivity.
Qed.

Lemma get_email_from_token_invalid (token : TokenString) (w : World) (e : exn) :
  decode settings sign (now w) token = Raise e ->
  get_email_from_token settings sign token w = (Raise e, w).
Proof.
  intros H. unfold get_email_from_token. run_handler. rewrite H. reflexivity.
Qed.

Lemma confirmed_email_invalid (token : TokenString) (w : World) (e : exn) :
  decode settings sign (now w) token = Raise e ->
  confirm token w = (Raise e, w).
Proof.
  intros Hd. unfold confirmed_email, bind at 1.
  rewrite (get_email_from_token_invalid token w e Hd). reflexivity.
Qed.

Lemma confirmed_email_unknown (token : TokenString) (w : World) (mail : string) :
  decode settings sign (now w) token = Return (mkClaims mail) ->
  (forall u, In u (users w) -> email u <> mail) ->
  confirm token w = (Raise (HTTPException HTTP_400_BAD_REQUEST "Verification error"), w).
Proof.
  intros Hd Habs. unfold confirmed_email, bind at 1.
  rewrite (get_email_from_token_valid token w _ Hd). simpl.
  unfold bind at 1. unfold UserService.get_user_by_email.
  rewrite (get_user_by_email_absent mail w Habs). reflexivity.
Qed.

Lemma confirmed_email_known (token : TokenString) (w : World) (u : User) :
  NoDup (map email (users w)) ->
  decode settings sign (now w) token = Return (mkClaims (email u)) ->
  In u (users w) ->
  confirm token w
  = if is_verified u
    then (Return "Your email is already verified", w)
    else (Return "Email verified successfully",
          set_users (UserRepository.update_row (user_id_ u)
                       (UserRepository.set_is_verified true) (users w)) w).
Proof.
  intros Hnd Hd Hin. unfold confirmed_email, bind at 1.
  rewrite (get_email_from_token_valid token w _ Hd). simpl.
  unfold bind at 1. unfold UserService.get_user_by_email.
  rewrite (get_user_by_email_present u w Hnd Hin).
  destruct (is_verified u); [reflexivity|].
  unfold UserService.confirm_email, UserRepository.confirmed_email.
  unfold bind at 1. unfold bind at 1.
  rewrite (get_user_by_email_present u w Hnd Hin). reflexivity.
Qed.

(** Confirming a second time changes nothing more. *)
Lemma confirmed_email_idempotent (token : TokenString) (w : World) :
  NoDup (map email (users w)) ->
  snd (confirm token (snd (confirm token w))) = snd (confirm token w).
Proof.
  intros Hnd.
  destruct (decode settings sign (now w) token) as [[mail]|e] eqn:Hd.
  - destruct (user_by_key_decide email mail (users w)) as [Habs | [u [Hin He]]].
    + rewrite (confirmed_email_unknown token w mail Hd Habs). simpl.
      rewrite (confirmed_email_unknown token w mail Hd Habs). reflexivity.
    + subst mail. rewrite (confirmed_email_known token w u Hnd Hd Hin).
      destruct (is_verified u) eqn:Ef; simpl.
      * rewrite (confirmed_email_known token w u Hnd Hd Hin), Ef. reflexivity.
      * set (w' := set_users _ w).
        assert (Hnd' : NoDup (map email (users w'))).
        { unfold w'. simpl. rewrite update_row_email; [exact Hnd | reflexivity]. }
        assert (Hin' : In (UserRepository.set_is_verified true u) (users w')).
        { unfold w'. simpl. apply update_row_member; [exact Hin | reflexivity]. }
        rewrite (confirmed_email_known token w' (UserRepository.set_is_verified true u)
                   Hnd' Hd Hin').
        reflexivity.
  - rewrite (confirmed_email_invalid token w e Hd). simpl.
    rewrite (confirmed_email_invalid token w e Hd). reflexivity.
Qed.

End Confirmation.

(** ** The verified flag along the transitions *)

Lemma verified_in_same_users (w w' : World) (k : Z) :
  users w' = users w -> verified_in w k -> verified_in w' k.
Proof. intros E [u H]. exists u. rewrite E. exact H. Qed.

Lemma verified_in_appended (w w' : World) (x : User) (k : Z) :
  users w' = (users w ++ [x])%list -> verified_in w k -> verified_in w' k.
Proof.
  intros E [u [Hin H]]. exists u. rewrite E. split; [|exact H].
  apply in_or_app. left. exact Hin.
Qed.

Ltac split_cases :=
  repeat match goal with
         | |- context [match ?x with _ => _ end] =>
             match x with
             | context [match _ with _ => _ end] => fail 1
             | _ => destruct x eqn:?
             end
         end.

Ltac unfold_handlers :=
  unfold register_user, login_user, confirmed_email, request_email,
    create_contact_route, update_contact_route, validated,
    create_access_token, get_email_from_token,
    UserService.get_user_by_email, UserService.get_user_by_username,
    UserService.create_user, UserService.confirm_email,
    UserRepository.get_user_by_email, UserRepository.get_user_by_username,
    UserRepository.create_user, UserRepository.confirmed_email,
    UserRepository.update_avatar_url,
    ContactService.create_contact, ContactService.get_contact,
    ContactService.update_contact, ContactService.remove_contact,
    ContactService.get_upcoming_birthdays,
    ContactRepository.is_contact_exists, ContactRepository.create_contact,
    ContactRepository.get_contact_by_id, ContactRepository.update_contact,
    ContactRepository.remove_contact, ContactRepository.get_upcoming_birthdays,
    scalar_one_or_none, bind, ret, raise, get_world, put_world, try_except, add_task.

Section OneWay.

Variable settings : Settings.
Variable sign : string -> string -> Claims -> Z -> string.
Variable get_password_hash : string -> string.
Variable verify_password : string -> string -> bool.
Variable avatar_for : string -> option string.
Variable email_syntax_ok : string -> bool.

Local Abbreviation serve_ :=
  (serve settings sign get_password_hash verify_password avatar_for email_syntax_ok).
Local Abbreviation step_ :=
  (step settings sign get_password_hash verify_password avatar_for email_syntax_ok).
Local Abbreviation steps_ :=
  (steps settings sign get_password_hash verify_password avatar_for email_syntax_ok).

Lemma serve_keeps_verified (r : Request) (w : World) (k : Z) :
  verified_in w k -> verified_in (serve_ r w) k.
Proof.
  intros Hv. destruct r; unfold serve; repeat progress unfold_handlers; cbv beta.
  - (* register *)
    split_cases; simpl;
      first [ exact Hv
            | eapply verified_in_appended; [reflexivity | exact Hv] ].
  - (* login *)
    split_cases; simpl; exact Hv.
  - (* confirm *)
    split_cases; simpl;
      first [ exact Hv
            | apply update_row_keeps_verified;
              [intros; reflexivity | intros; reflexivity | exact Hv] ].
  - (* resend *)
    split_cases; simpl;
      first [ exact Hv | eapply verified_in_same_users; [reflexivity | exact Hv] ].
  - (* avatar *)
    split_cases; simpl;
      first [ exact Hv
            | apply update_row_keeps_verified;
              [intros; reflexivity | intros v Hf; exact Hf | exact Hv] ].
  - split_cases; simpl;
      first [ exact Hv | eapply verified_in_same_users; [reflexivity | exact Hv] ].
  - split_cases; simpl;
      first [ exact Hv | eapply verified_in_same_users; [reflexivity | exact Hv] ].
  - split_cases; simpl;
      first [ exact Hv | eapply verified_in_same_users; [reflexivity | exact Hv] ].
  - split_cases; simpl;
      first [ exact Hv | eapply verified_in_same_users; [reflexivity | exact Hv] ].
  - split_cases; simpl;
      first [ exact Hv | eapply verified_in_same_users; [reflexivity | exact Hv] ].
Qed.

Lemma step_keeps_verified (w w' : World) (k : Z) :
  step_ w w' -> verified_in w k -> verified_in w' k.
Proof.
  intros Hs Hv. inversion Hs; subst.
  - apply serve_keeps_verified. exact Hv.
  - eapply verified_in_same_users; [reflexivity | exact Hv].
Qed.

Lemma steps_keep_verified (w w' : World) (k : Z) :
  steps_ w w' -> verified_in w k -> verified_in w' k.
Proof.
  intros Hs. induction Hs as [w | w1 w2 w3 H12 _ IH]; intros Hv; [exact Hv|].
  apply IH. eapply step_keeps_verified; eassumption.
Qed.

End OneWay.

(** C6: for a token that decodes to an e-mail, with e-mails unique in the
    table: if no user has that e-mail the handler raises 400 "Verification
    error" and writes nothing; if the user is already verified it reports so
    and writes nothing; otherwise it reports success and the user's row has
    [is_verified] set, all else being kept.  Confirming again leaves the
    store as the first confirmation left it, and along any sequence of
    requests and clock ticks a user who is verified stays verified. *)
Theorem confirm_email_one_way
        (settings : Settings) (sign : string -> string -> Claims -> Z -> string)
        (get_password_hash : string -> string)
        (verify_password : string -> string -> bool)
        (avatar_for : string -> option string) (email_syntax_ok : string -> bool)
        (token : TokenString) (w : World) (mail : string) :
  NoDup (map email (users w)) ->
  decode settings sign (now w) token = Return (mkClaims mail) ->
  ((forall u, In u (users w) -> email u <> mail) ->
   confirmed_email settings sign token w
   = (Raise (HTTPException HTTP_400_BAD_REQUEST "Verification error"), w))
  /\ (forall u, In u (users w) -> email u = mail -> is_verified u = true ->
                confirmed_email settings sign token w
                = (Return "Your email is already verified", w))
  /\ (forall u, In u (users w) -> email u = mail -> is_verified u = false ->
                exists w',
                  confirmed_email settings sign token w
                  = (Return "Email verified successfully", w')
                  /\ In (UserRepository.set_is_verified true u) (users w')
                  /\ verified_in w' (user_id_ u)
                  /\ (forall v, In v (users w) -> user_id_ v <> user_id_ u ->
                                In v (users w'))
                  /\ map email (users w') = map email (users w)
                  /\ contacts w' = contacts w
                  /\ confirmed_email settings sign token w'
                     = (Return "Your email is already verified", w'))
  /\ snd (confirmed_email settings sign token
                          (snd (confirmed_email settings sign token w)))
     = snd (confirmed_email settings sign token w)
  /\ (forall w1 w2 k,
         steps settings sign get_password_hash verify_password avatar_for
               email_syntax_ok w1 w2 ->
         verified_in w1 k -> verified_in w2 k).
Proof.
  intros Hnd Hd. split; [|split; [|split; [|split]]].
  - apply confirmed_email_unknown. exact Hd.
  - intros u Hin He Hf. subst mail.
    rewrite (confirmed_email_known settings sign token w u Hnd Hd Hin), Hf. reflexivity.
  - intros u Hin He Hf. subst mail.
    rewrite (confirmed_email_known settings sign token w u Hnd Hd Hin), Hf.
    eexists. split; [reflexivity|].
    assert (Hin' : In (UserRepository.set_is_verified true u)
                      (UserRepository.update_row (user_id_ u)
                         (UserRepository.set_is_verified true) (users w))).
    { apply update_row_member; [exact Hin | reflexivity]. }
    assert (Hmails : map email (UserRepository.update_row (user_id_ u)
                                  (UserRepository.set_is_verified true) (users w))
                     = map email (users w)).
    { apply update_row_email. intros v. reflexivity. }
    split; [exact Hin'|]. split.
    { exists (UserRepository.set_is_verified true u). simpl. auto. }
    split.
    { intros v Hv Hne. simpl. apply update_row_others; assumption. }
    split; [exact Hmails|]. split; [reflexivity|].
    set (w' := set_users _ w).
    assert (Hnd' : NoDup (map email (users w'))).
    { unfold w'. simpl. rewrite Hmails. exact Hnd. }
    rewrite (confirmed_email_known settings sign token w'
               (UserRepository.set_is_verified true u) Hnd' Hd Hin').
    reflexivity.
  - apply confirmed_email_idempotent. exact Hnd.
  - intros w1 w2 k. apply steps_keep_verified.
Qed.

(** On [example_world], a verification token for [carol] flips her flag,
    and a login then keeps it. *)
Lemma confirm_email_one_way_witness :
  let token := issue example_settings example_sign 1990 (mkClaims "carol@x.com") 86400 in
  exists w',
    confirmed_email example_settings example_sign token example_world
    = (Return "Email verified successfully", w')
    /\ verified_in w' 2
    /\ verified_in
         (serve example_settings example_sign example_hash example_verify
                example_avatar example_email_ok (Login (mkForm "carol" "secret2")) w')
         2.
Proof.
  intros token.
  assert (Hnd : NoDup (map email (users example_world))).
  { simpl. repeat constructor; simpl; intuition discriminate. }
  destruct (confirm_email_one_way example_settings example_sign example_hash
              example_verify example_avatar example_email_ok token example_world
              "carol@x.com" Hnd eq_refl) as [_ [_ [Hflip [_ Hkeep]]]].
  destruct (Hflip carol (or_intror (or_introl eq_refl)) eq_refl eq_refl)
    as [w' [E [_ [Hv _]]]].
  exists w'. split; [exact E|]. split; [exact Hv|].
  apply (Hkeep w' _ 2); [|exact Hv].
  eapply steps_cons; [apply step_serve | apply steps_refl].
Defined.

(** ** Upcoming birthdays *)







(** ** Tokens *)

Section Tokens.

Variable settings : Settings.
Variable sign : string -> string -> Claims -> Z -> string.

Lemma issued_signature_valid (at_time : Z) (claims : Claims) (ttl : Z) :
  signature_valid settings sign (issue settings sign at_time claims ttl) = true.
Proof. unfold signature_valid, issue. simpl. apply String.eqb_refl. Qed.

(** C8: a token issued at [issued_at] for [claims] with [ttl] decodes to
    [claims] at every instant before [issued_at + ttl] and fails with
    [InvalidToken] at every instant from [issued_at + ttl] on; a token
    whose signature is not the one the server computes for its payload
    fails with [InvalidToken] at every instant. *)
Theorem decode_issue_round_trip (claims : Claims) (ttl issued_at at_time : Z) :
  (at_time < issued_at + ttl ->
   decode settings sign at_time (issue settings sign issued_at claims ttl)
   = Return claims)
  /\ (issued_at + ttl <= at_time ->
      decode settings sign at_time (issue settings sign issued_at claims ttl)
      = Raise InvalidToken)
  /\ (forall t : TokenString,
         tok_signature t
         <> sign (JWT_SECRET settings) (JWT_ALGORITHM settings) (tok_claims t) (tok_exp t) ->
         decode settings sign at_time t = Raise InvalidToken).
Proof.
  split; [|split].
  - intros Hlt. unfold decode. rewrite issued_signature_valid.
    unfold issue. simpl. apply Z.ltb_lt in Hlt. rewrite Hlt. reflexivity.
  - intros Hge. unfold decode. rewrite issued_signature_valid.
    unfold issue. simpl. apply Z.ltb_ge in Hge. rewrite Hge. reflexivity.
  - intros t Hbad. unfold decode, signature_valid.
    apply String.eqb_neq in Hbad. rewrite Hbad. reflexivity.
Qed.

End Tokens.

(** A token for ["alice"] issued at 2000 for 3600 seconds decodes at 5599,
    fails at 5600, and fails at once when its signature is replaced. *)
Lemma decode_issue_round_trip_witness :
  let t := issue example_settings example_sign 2000 (mkClaims "alice") 3600 in
  decode example_settings example_sign 5599 t = Return (mkClaims "alice")
  /\ decode example_settings example_sign 5600 t = Raise InvalidToken
  /\ decode example_settings example_sign 2001
            (mkTokenString (tok_claims t) (tok_exp t) "forged")
     = Raise InvalidToken.
Proof.
  intros t.
  destruct (decode_issue_round_trip example_settings example_sign
              (mkClaims "alice") 3600 2000 5599) as [Hbefore _].
  destruct (decode_issue_round_trip example_settings example_sign
              (mkClaims "alice") 3600 2000 5600) as [_ [Hafter _]].
  destruct (decode_issue_round_trip example_settings example_sign
              (mkClaims "alice") 3600 2000 2001) as [_ [_ Hforged]].
  split; [apply Hbefore; lia|]. split; [apply Hafter; lia|].
  apply Hforged. simpl. discriminate.
Defined.

(** ** Validation of a contact body *)

Lemma date_gtb_true_iff (a b : date) : date_gtb a b = true <-> date_after a b.
Proof.
  unfold date_gtb, date_after.
  rewrite !orb_true_iff, !andb_true_iff, !orb_true_iff, !andb_true_iff,
    !Z.ltb_lt, !Z.eqb_eq.
  tauto.
Qed.

Lemma at_eol_true_iff (s : string) :
  at_eol s = true <-> s = "" \/ s = String newline "".
Proof.
  destruct s as [|c [|c' s']]; simpl.
  - intuition.
  - rewrite Ascii.eqb_eq. split.
    + intros ->. right. reflexivity.
    + intros [H|H]; [discriminate | inversion H; reflexivity].
  - split; [discriminate | intros [H|H]; discriminate].
Qed.

(** What [\d{lo,hi}] followed by [k] accepts. *)
Lemma match_repeat_digit_spec (k : bool -> string -> bool) (hi : nat) :
  forall (lo : nat) (pos0 : bool) (s : string),
    match_repeat Digit k lo hi pos0 s = true
    <-> exists pre rest,
          s = pre ++ rest
          /\ all_digits pre = true
          /\ (lo <= String.length pre <= hi)%nat
          /\ k (match pre with EmptyString => pos0 | String _ _ => false end) rest = true.
Proof.
  induction hi as [|hi IH]; intros lo pos0 s; simpl.
  - rewrite andb_true_iff, Nat.eqb_eq. split.
    + intros [Hlo Hk]. exists "", s. simpl. repeat split; try lia; assumption.
    + intros [pre [rest [Hs [_ [Hlen Hk]]]]].
      destruct pre as [|c pre]; simpl in *; [subst; split; [lia | exact Hk] | lia].
  - rewrite orb_true_iff, andb_true_iff, Nat.eqb_eq. split.
    + intros [Hstep | [Hlo Hk]].
      * destruct s as [|c s']; [discriminate|].
        apply andb_true_iff in Hstep. destruct Hstep as [Hc Hrest].
        apply IH in Hrest. destruct Hrest as [pre [rest [Hs [Hd [Hlen Hk]]]]].
        exists (String c pre), rest. simpl. subst s'.
        split; [reflexivity|]. split; [rewrite Hd; simpl in Hc; rewrite Hc; reflexivity|].
        split; [lia|]. destruct pre; exact Hk.
      * exists "", s. simpl. repeat split; try lia; assumption.
    + intros [pre [rest [Hs [Hd [Hlen Hk]]]]].
      destruct pre as [|c pre]; simpl in *.
      * right. subst. split; [lia | exact Hk].
      * left. subst s. apply andb_true_iff in Hd. destruct Hd as [Hc Hd].
        apply andb_true_iff. split; [exact Hc|].
        apply IH. exists pre, rest. split; [reflexivity|]. split; [exact Hd|].
        split; [lia|]. destruct pre; exact Hk.
Qed.

Lemma digit_then_digits_spec (s : string) :
  match s with
  | String c s' =>
      in_range "1" "9" c && match_repeat Digit (match_items [Eol]) 1 14 false s'
  | EmptyString => false
  end = true
  <-> exists first rest tail,
        s = String first (rest ++ tail)
        /\ in_range "1" "9" first = true
        /\ all_digits rest = true
        /\ (1 <= String.length rest <= 14)%nat
        /\ (tail = "" \/ tail = String newline "").
Proof.
  split.
  - destruct s as [|c s']; [discriminate|].
    rewrite andb_true_iff. intros [Hc Hrep].
    apply match_repeat_digit_spec in Hrep.
    destruct Hrep as [pre [rest [Hs [Hd [Hlen Hk]]]]].
    simpl in Hk. rewrite andb_true_r in Hk. apply at_eol_true_iff in Hk.
    exists c, pre, rest. subst s'. auto.
  - intros [first [rest [tail [-> [Hf [Hd [Hlen Ht]]]]]]].
    rewrite andb_true_iff. split; [exact Hf|].
    apply match_repeat_digit_spec. exists rest, tail.
    split; [reflexivity|]. split; [exact Hd|]. split; [exact Hlen|].
    simpl. rewrite andb_true_r. apply at_eol_true_iff. exact Ht.
Qed.

(** The matcher accepts exactly the language read off the pattern. *)
Lemma phone_regex_language (value : string) :
  re_match phone_regex value = true <-> international_format value.
Proof.
  unfold re_match, phone_regex, international_format.
  cbn [match_items]. rewrite andb_true_l, orb_true_iff. split.
  - intros [Hplus | Hbare].
    + destruct value as [|c s]; [discriminate|].
      apply andb_true_iff in Hplus. destruct Hplus as [Hc Hrest].
      cbn [atom_matches] in Hc. apply Ascii.eqb_eq in Hc. subst c.
      apply digit_then_digits_spec in Hrest.
      destruct Hrest as [first [rest [tail [-> H]]]].
      exists "+", first, rest, tail. simpl. split; [reflexivity|]. split; [auto|]. exact H.
    + apply digit_then_digits_spec in Hbare.
      destruct Hbare as [first [rest [tail [-> H]]]].
      exists "", first, rest, tail. simpl. split; [reflexivity|]. split; [auto|]. exact H.
  - intros [plus [first [rest [tail [-> [Hplus H]]]]]].
    assert (Hm : match String first (rest ++ tail) with
                 | String c s' =>
                     in_range "1" "9" c
                     && match_repeat Digit (match_items [Eol]) 1 14 false s'
                 | EmptyString => false
                 end = true).
    { apply (proj2 (digit_then_digits_spec (String first (rest ++ tail)))).
      exists first, rest, tail. split; [reflexivity | exact H]. }
    destruct Hplus as [-> | ->].
    + right. exact Hm.
    + left. exact Hm.
Qed.

Lemma length_append (s1 s2 : string) :
  String.length (s1 ++ s2) = (String.length s1 + String.length s2)%nat.
Proof. induction s1 as [|c s1 IH]; simpl; [reflexivity | rewrite IH; reflexivity]. Qed.

(** Nothing in the language is longer than 17 characters, so the upper
    bound of the [Field] never rejects a match. *)
Lemma international_format_length (value : string) :
  international_format value -> len value <= 17.
Proof.
  intros [plus [first [rest [tail [-> [Hp [_ [_ [Hlen Ht]]]]]]]]].
  unfold len. rewrite length_append. simpl. rewrite length_append.
  destruct Hp as [-> | ->]; destruct Ht as [-> | ->]; simpl; lia.
Qed.




(** ** The avatar *)

Lemma update_row_ids (uid : Z) (f : User -> User) (us : list User) :
  (forall v, user_id_ (f v) = user_id_ v) ->
  map user_id_ (UserRepository.update_row uid f us) = map user_id_ us.
Proof.
  intros Hf. unfold UserRepository.update_row. rewrite map_map.
  apply map_ext. intros v. destruct (user_id_ v =? uid); [apply Hf | reflexivity].
Qed.

(** C10: with ids and e-mails unique in the table, [update_avatar_url]
    returns [None] and leaves the world as it was when no user has the
    e-mail; when a user has it, it returns that user with [avatar_url]
    set to the url and every other field as before, the user's row is
    replaced by the returned one, every other row stays, and nothing
    outside the table of users changes. *)
Theorem update_avatar_url_frame (mail url : string) (w : World) :
  NoDup (map user_id_ (users w)) ->
  NoDup (map email (users w)) ->
  ((forall u, In u (users w) -> email u <> mail) ->
   UserRepository.update_avatar_url mail url w = (Return None, w))
  /\ (forall u, In u (users w) -> email u = mail ->
        exists u' w',
          UserRepository.update_avatar_url mail url w = (Return (Some u'), w')
          /\ avatar_url u' = Some url
          /\ user_id_ u' = user_id_ u /\ username u' = username u
          /\ email u' = email u /\ hashed_password u' = hashed_password u
          /\ created_at u' = created_at u /\ is_verified u' = is_verified u
          /\ users w' = map (fun v => if user_id_ v =? user_id_ u then u' else v) (users w)
          /\ In u' (users w')
          /\ (forall v, In v (users w) -> v <> u -> In v (users w'))
          /\ w' = set_users (users w') w).
Proof.
  intros Hids Hmails. split.
  - intros Habs. unfold UserRepository.update_avatar_url, bind at 1.
    rewrite (get_user_by_email_absent mail w Habs). reflexivity.
  - intros u Hin He. subst mail.
    set (f := UserRepository.set_avatar_url (Some url)).
    set (us' := UserRepository.update_row (user_id_ u) f (users w)).
    assert (Hin' : In (f u) us').
    { apply update_row_member; [exact Hin | reflexivity]. }
    assert (Hids' : NoDup (map user_id_ us')).
    { unfold us'. rewrite update_row_ids; [exact Hids | intros v; reflexivity]. }
    assert (Hrefresh : filter (fun v => user_id_ v =? user_id_ u) us' = [f u]).
    { exact (filter_key_unique User Z user_id_ Z.eqb Z.eqb_eq (f u) us' Hids' Hin'). }
    exists (f u), (set_users us' w).
    split.
    { unfold UserRepository.update_avatar_url, bind at 1.
      rewrite (get_user_by_email_present u w Hmails Hin).
      run_handler. fold f. fold us'. rewrite Hrefresh. reflexivity. }
    repeat (split; [reflexivity|]).
    split.
    { simpl. unfold us', UserRepository.update_row. apply map_ext_in.
      intros v Hv. destruct (user_id_ v =? user_id_ u) eqn:E; [|reflexivity].
      apply Z.eqb_eq in E.
      rewrite (unique_key_injective User Z user_id_ Z.eqb Z.eqb_eq v u (users w)
                 Hids Hv Hin E).
      reflexivity. }
    split; [exact Hin'|]. split; [|reflexivity].
    intros v Hv Hne. simpl. apply update_row_others; [exact Hv|].
    intros E. apply Hne.
    exact (unique_key_injective User Z user_id_ Z.eqb Z.eqb_eq v u (users w)
             Hids Hv Hin E).
Qed.

(** On [example_world]: no user has [zed@x.com], and [carol] gets her
    avatar. *)
Lemma update_avatar_url_frame_witness :
  UserRepository.update_avatar_url "zed@x.com" "http://img/z.png" example_world
  = (Return None, example_world)
  /\ exists u' w',
       UserRepository.update_avatar_url "carol@x.com" "http://img/c.png" example_world
       = (Return (Some u'), w')
       /\ avatar_url u' = Some "http://img/c.png"
       /\ is_verified u' = false /\ In alice (users w').
Proof.
  assert (Hids : NoDup (map user_id_ (users example_world))).
  { simpl. repeat constructor; simpl; intuition discriminate. }
  assert (Hmails : NoDup (map email (users example_world))).
  { simpl. repeat constructor; simpl; intuition discriminate. }
  split.
  - apply (update_avatar_url_frame "zed@x.com" "http://img/z.png" example_world
             Hids Hmails).
    simpl. intros u [<-|[<-|[]]]; simpl; discriminate.
  - destruct (update_avatar_url_frame "carol@x.com" "http://img/c.png" example_world
                Hids Hmails) as [_ Hsome].
    destruct (Hsome carol (or_intror (or_introl eq_refl)) eq_refl)
      as [u' [w' [E [Ha [_ [_ [_ [_ [_ [Hv [_ [_ [Hothers _]]]]]]]]]]]]].
    exists u', w'. split; [exact E|]. split; [exact Ha|]. split; [exact Hv|].
    apply Hothers; [simpl; auto | discriminate].
Defined.

(* ================================================================== *)
(** * Further properties of the user store *)

(** ** Lookups on any table *)

Lemma filter_length_occurrences {A : Type} (key : A -> string) (k : string) (l : list A) :
  List.length (filter (fun x => String.eqb (key x) k) l) = occurrences (map key l) k.
Proof.
  unfold occurrences. induction l as [|a l IH]; simpl; [reflexivity|].
  destruct (string_dec (key a) k) as [E|E].
  - apply String.eqb_eq in E. rewrite E. simpl. rewrite IH. reflexivity.
  - apply String.eqb_neq in E. rewrite E. exact IH.
Qed.

Lemma scalar_by_occurrences {A : Type} (key : A -> string) (k : string) (l : list A)
      (w : World) :
  let out := scalar_one_or_none (filter (fun x => String.eqb (key x) k) l) w in
  snd out = w
  /\ (fst out = Return None <-> occurrences (map key l) k = 0%nat)
  /\ ((exists u, fst out = Return (Some u) /\ In u l /\ key u = k)
      <-> occurrences (map key l) k = 1%nat)
  /\ (fst out = Raise MultipleResultsFound <-> (2 <= occurrences (map key l) k)%nat).
Proof.
  rewrite <- (filter_length_occurrences key k l).
  destruct (filter (fun x => String.eqb (key x) k) l) as [|a [|b rest]] eqn:E; simpl.
  - split; [reflexivity|]. split; [tauto|]. split.
    + split; [intros [u [H _]]; discriminate | discriminate].
    + split; [discriminate | lia].
  - split; [reflexivity|]. split; [split; discriminate|]. split.
    + split; [reflexivity|]. intros _. exists a. split; [reflexivity|].
      exact (filter_key_some_in A string key String.eqb String.eqb_eq k l a [] E).
    + split; [discriminate | lia].
  - split; [reflexivity|]. split; [split; discriminate|]. split.
    + split; [intros [u [H _]]; discriminate | discriminate].
    + split; [lia | reflexivity].
Qed.

(** X1: a lookup by e-mail or by username never writes, and its outcome is
    decided by how often the value occurs in the column: [None] for no
    row, the row for exactly one, [MultipleResultsFound] for two or more. *)
Theorem user_lookup_by_occurrences (value : string) (w : World) :
  (snd (UserRepository.get_user_by_email value w) = w
   /\ (fst (UserRepository.get_user_by_email value w) = Return None
       <-> occurrences (map email (users w)) value = 0%nat)
   /\ ((exists u, fst (UserRepository.get_user_by_email value w) = Return (Some u)
                  /\ In u (users w) /\ email u = value)
       <-> occurrences (map email (users w)) value = 1%nat)
   /\ (fst (UserRepository.get_user_by_email value w) = Raise MultipleResultsFound
       <-> (2 <= occurrences (map email (users w)) value)%nat))
  /\ (snd (UserRepository.get_user_by_username value w) = w
      /\ (fst (UserRepository.get_user_by_username value w) = Return None
          <-> occurrences (map username (users w)) value = 0%nat)
      /\ ((exists u, fst (UserRepository.get_user_by_username value w) = Return (Some u)
                     /\ In u (users w) /\ username u = value)
          <-> occurrences (map username (users w)) value = 1%nat)
      /\ (fst (UserRepository.get_user_by_username value w) = Raise MultipleResultsFound
          <-> (2 <= occurrences (map username (users w)) value)%nat)).
Proof.
  split.
  - exact (scalar_by_occurrences email value (users w) w).
  - exact (scalar_by_occurrences username value (users w) w).
Qed.

(** Two rows with one e-mail, which the table of the migration cannot
    hold, make the lookup raise. *)
Lemma user_lookup_by_occurrences_witness :
  fst (UserRepository.get_user_by_email "alice@x.com"
         (set_users [alice; carol; alice] example_world))
  = Raise MultipleResultsFound
  /\ fst (UserRepository.get_user_by_username "zed" example_world) = Return None.
Proof.
  split.
  - apply (user_lookup_by_occurrences "alice@x.com"
             (set_users [alice; carol; alice] example_world)).
    simpl. lia.
  - apply (user_lookup_by_occurrences "zed" example_world). reflexivity.
Defined.

(** ** Creating a user *)

Lemma violates_unique_false_iff (new : User) (us : list User) :
  UserRepository.violates_unique new us = false
  <-> forall v, In v us -> email v <> email new /\ username v <> username new.
Proof.
  unfold UserRepository.violates_unique. split.
  - intros H v Hv. split; intros E;
      (assert (Hex : existsb (fun v0 => String.eqb (email v0) (email new)
                                        || String.eqb (username v0) (username new)) us
                     = true);
       [apply existsb_exists; exists v; split; [exact Hv|];
        apply orb_true_iff; rewrite !String.eqb_eq; auto
       | congruence]).
  - intros H. apply not_true_is_false. intros Hex.
    apply existsb_exists in Hex. destruct Hex as [v [Hv Hc]].
    apply orb_true_iff in Hc. rewrite !String.eqb_eq in Hc.
    destruct (H v Hv). tauto.
Qed.



(** ** The constraints of table [users] are kept *)

Lemma get_user_by_id_present (u : User) (w : World) :
  NoDup (map user_id_ (users w)) -> In u (users w) ->
  UserRepository.get_user_by_id (user_id_ u) w = (Return (Some u), w).
Proof.
  intros Hnd Hin. unfold UserRepository.get_user_by_id. run_handler.
  rewrite (filter_key_unique User Z user_id_ Z.eqb Z.eqb_eq u (users w) Hnd Hin).
  reflexivity.
Qed.

Lemma users_wf_same (w w' : World) :
  users w' = users w -> next_user_id w' = next_user_id w -> users_wf w -> users_wf w'.
Proof. unfold users_wf. intros -> ->. tauto. Qed.

Lemma update_row_usernames (uid : Z) (f : User -> User) (us : list User) :
  (forall v, username (f v) = username v) ->
  map username (UserRepository.update_row uid f us) = map username us.
Proof.
  intros Hf. unfold UserRepository.update_row. rewrite map_map.
  apply map_ext. intros v. destruct (user_id_ v =? uid); [apply Hf | reflexivity].
Qed.

Lemma users_wf_update_row (uid : Z) (f : User -> User) (w w' : World) :
  (forall v, user_id_ (f v) = user_id_ v) ->
  (forall v, email (f v) = email v) ->
  (forall v, username (f v) = username v) ->
  users w' = UserRepository.update_row uid f (users w) ->
  next_user_id w' = next_user_id w ->
  users_wf w -> users_wf w'.
Proof.
  unfold users_wf. intros Hid He Hn -> -> [H1 [H2 [H3 H4]]].
  rewrite update_row_ids, update_row_email, update_row_usernames by assumption.
  repeat (split; [assumption|]).
  unfold UserRepository.update_row. apply Forall_map.
  apply Forall_impl with (2 := H4). intros v Hv.
  destruct (user_id_ v =? uid); [rewrite Hid|]; exact Hv.
Qed.

Lemma NoDup_app_one {A : Type} (l : list A) (a : A) :
  NoDup l -> ~ In a l -> NoDup (l ++ [a]).
Proof.
  intros Hnd Hnot. induction l as [|b l IH]; simpl.
  - constructor; [intros [] | constructor].
  - inversion Hnd as [|? ? Hb Hl]; subst. constructor.
    + rewrite in_app_iff. intros [H|[H|[]]]; [contradiction|].
      subst. apply Hnot. left. reflexivity.
    + apply IH; [exact Hl|]. intros H. apply Hnot. right. exact H.
Qed.

Lemma users_wf_append (new : User) (w w' : World) :
  users w' = (users w ++ [new])%list ->
  next_user_id w' = next_user_id w + 1 ->
  user_id_ new = next_user_id w ->
  UserRepository.violates_unique new (users w) = false ->
  users_wf w -> users_wf w'.
Proof.
  unfold users_wf. intros -> -> Hid Hfree [H1 [H2 [H3 H4]]].
  rewrite violates_unique_false_iff in Hfree.
  rewrite !map_app. simpl.
  split; [|split; [|split]].
  - apply NoDup_app_one; [exact H1|]. intros Hin. apply in_map_iff in Hin.
    destruct Hin as [v [Hv Hin]]. rewrite Forall_forall in H4.
    specialize (H4 v Hin). lia.
  - apply NoDup_app_one; [exact H2|]. intros Hin. apply in_map_iff in Hin.
    destruct Hin as [v [Hv Hin]]. destruct (Hfree v Hin). contradiction.
  - apply NoDup_app_one; [exact H3|]. intros Hin. apply in_map_iff in Hin.
    destruct Hin as [v [Hv Hin]]. destruct (Hfree v Hin). contradiction.
  - apply Forall_app. split.
    + apply Forall_impl with (2 := H4). intros v Hv. lia.
    + constructor; [lia | constructor].
Qed.

Section Invariant.

Variable settings : Settings.
Variable sign : string -> string -> Claims -> Z -> string.
Variable get_password_hash : string -> string.
Variable verify_password : string -> string -> bool.
Variable avatar_for : string -> option string.
Variable email_syntax_ok : string -> bool.

Lemma serve_keeps_users_wf (r : Request) (w : World) :
  users_wf w ->
  users_wf (serve settings sign get_password_hash verify_password avatar_for
                  email_syntax_ok r w).
Proof.
  intros Hwf. destruct r; unfold serve; repeat progress unfold_handlers; cbv beta.
  - split_cases; simpl;
      first [ exact Hwf
            | eapply users_wf_append;
              [reflexivity | reflexivity | reflexivity | eassumption | exact Hwf] ].
  - split_cases; simpl; exact Hwf.
  - split_cases; simpl;
      first [ exact Hwf
            | eapply users_wf_update_row;
              [ | | | reflexivity | reflexivity | exact Hwf]; intros; reflexivity ].
  - split_cases; simpl;
      first [ exact Hwf | eapply users_wf_same; [reflexivity | reflexivity | exact Hwf] ].
  - split_cases; simpl;
      first [ exact Hwf
            | eapply users_wf_update_row;
              [ | | | reflexivity | reflexivity | exact Hwf]; intros; reflexivity ].
  - split_cases; simpl;
      first [ exact Hwf | eapply users_wf_same; [reflexivity | reflexivity | exact Hwf] ].
  - split_cases; simpl;
      first [ exact Hwf | eapply users_wf_same; [reflexivity | reflexivity | exact Hwf] ].
  - split_cases; simpl;
      first [ exact Hwf | eapply users_wf_same; [reflexivity | reflexivity | exact Hwf] ].
  - split_cases; simpl;
      first [ exact Hwf | eapply users_wf_same; [reflexivity | reflexivity | exact Hwf] ].
  - split_cases; simpl;
      first [ exact Hwf | eapply users_wf_same; [reflexivity | reflexivity | exact Hwf] ].
Qed.

(** X4: the primary key and the two unique columns of table [users], and
    the bound of the keys by the sequence, hold after every request and
    every clock tick if they held before: no handler and no repository
    method produces a second row with a key, an e-mail or a username that
    is already there. *)
Theorem users_wf_invariant (w w' : World) :
  steps settings sign get_password_hash verify_password avatar_for email_syntax_ok w w' ->
  users_wf w -> users_wf w'.
Proof.
  intros Hs. induction Hs as [w | w1 w2 w3 H12 _ IH]; intros Hwf; [exact Hwf|].
  apply IH. inversion H12; subst.
  - apply serve_keeps_users_wf. exact Hwf.
  - eapply users_wf_same; [reflexivity | reflexivity | exact Hwf].
Qed.

End Invariant.

Lemma example_world_wf : users_wf example_world.
Proof.
  unfold users_wf. simpl.
  repeat split; repeat constructor; simpl; try lia; intuition discriminate.
Qed.

(** After [dave] registers and [carol] confirms, the table of
    [example_world] still has unique keys, e-mails and usernames. *)
Lemma users_wf_invariant_witness :
  users_wf
    (serve example_settings example_sign example_hash example_verify example_avatar
           example_email_ok
           (ConfirmEmail (issue example_settings example_sign 1990
                                (mkClaims "carol@x.com") 86400))
           (serve example_settings example_sign example_hash example_verify
                  example_avatar example_email_ok
                  (Register (mkUserCreate "dave" "dave@x.com" "secret3")
                            "http://testserver/")
                  example_world)).
Proof.
  apply (users_wf_invariant example_settings example_sign example_hash example_verify
           example_avatar example_email_ok example_world).
  - eapply steps_cons; [apply step_serve|].
    eapply steps_cons; [apply step_serve|]. apply steps_refl.
  - exact example_world_wf.
Defined.

(** X3: on a table that satisfies its constraints, a user that
    [create_user] has returned is found again by e-mail, by username and by
    key, the users that were there before are still found by their e-mail,
    and the constraints still hold. *)
Theorem create_user_then_lookup
        (user : UserCreate) (avatar : option string) (w w' : World) (u : User) :
  users_wf w ->
  UserRepository.create_user user avatar w = (Return u, w') ->
  users_wf w'
  /\ UserRepository.get_user_by_email (uc_email user) w' = (Return (Some u), w')
  /\ UserRepository.get_user_by_username (uc_username user) w' = (Return (Some u), w')
  /\ UserRepository.get_user_by_id (user_id_ u) w' = (Return (Some u), w')
  /\ (forall v, In v (users w) ->
                UserRepository.get_user_by_email (email v) w' = (Return (Some v), w')).
Proof.
  intros Hwf Hc. unfold UserRepository.create_user in Hc.
  unfold bind, ret, raise, get_world, put_world in Hc. simpl in Hc.
  match type of Hc with context [UserRepository.violates_unique ?n ?l] =>
    destruct (UserRepository.violates_unique n l) eqn:Hfree end; [discriminate|].
  injection Hc as Hu Hw.
  assert (Hwf' : users_wf w').
  { rewrite <- Hw. eapply users_wf_append;
      [reflexivity | reflexivity | | exact Hfree | exact Hwf]. reflexivity. }
  pose proof Hwf' as [Hids [Hmails [Hnames Hbound]]].
  assert (Hin : In u (users w')).
  { rewrite <- Hw. simpl. apply in_or_app. right. rewrite Hu. left. reflexivity. }
  split; [exact Hwf'|].
  split; [|split; [|split]].
  - replace (uc_email user) with (email u) by (rewrite <- Hu; reflexivity).
    apply get_user_by_email_present; assumption.
  - replace (uc_username user) with (username u) by (rewrite <- Hu; reflexivity).
    apply get_user_by_username_present; assumption.
  - apply get_user_by_id_present; assumption.
  - intros v Hv. apply get_user_by_email_present; [assumption|].
    rewrite <- Hw. simpl. apply in_or_app. left. exact Hv.
Qed.

Lemma create_user_then_lookup_witness :
  let dave := mkUser 3 "dave" "dave@x.com" "h" 2000 false None in
  let w' := snd (UserRepository.create_user (mkUserCreate "dave" "dave@x.com" "h") None
                                            example_world) in
  UserRepository.create_user (mkUserCreate "dave" "dave@x.com" "h") None example_world
  = (Return dave, w')
  /\ UserRepository.get_user_by_username "dave" w' = (Return (Some dave), w')
  /\ UserRepository.get_user_by_email "alice@x.com" w' = (Return (Some alice), w').
Proof.
  intros dave w'.
  assert (E : UserRepository.create_user (mkUserCreate "dave" "dave@x.com" "h") None
                                         example_world = (Return dave, w'))
    by reflexivity.
  split; [exact E|].
  destruct (create_user_then_lookup (mkUserCreate "dave" "dave@x.com" "h") None
              example_world w' dave example_world_wf E) as [_ [_ [Hn [_ Hold]]]].
  split; [exact Hn|]. apply (Hold alice). simpl. auto.
Defined.

(* ================================================================== *)
(** * Further properties of the handlers *)

Section Flows.

Variable settings : Settings.
Variable sign : string -> string -> Claims -> Z -> string.
Variable get_password_hash : string -> string.
Variable verify_password : string -> string -> bool.
Variable avatar_for : string -> option string.

Local Abbreviation do_register := (register_user get_password_hash avatar_for).
Local Abbreviation do_login := (login_user settings sign verify_password).
Local Abbreviation ask_login := (post_login settings sign verify_password).
Local Abbreviation do_confirm := (confirmed_email settings sign).

Lemma register_user_returned (user : UserCreate) (base_url : string)
      (w w1 : World) (u : User) :
  do_register user base_url w = (Return u, w1) ->
  u = mkUser (next_user_id w) (uc_username user) (uc_email user)
             (get_password_hash (uc_password user)) (now w) false
             (avatar_for (uc_email user))
  /\ w1 = mkWorld (users w ++ [u]) (contacts w) (next_user_id w + 1) (next_contact_id w)
                  (background_tasks w ++ [send_email (email u) (username u) base_url])
                  (now w) (today w)
  /\ UserRepository.violates_unique u (users w) = false.
Proof.
  repeat progress unfold_handlers. cbv beta.
  split_cases; simpl; intros H; try discriminate H.
  injection H as <- <-. simpl. auto.
Qed.

Lemma register_user_raised (user : UserCreate) (base_url : string) (w : World) (e : exn) :
  fst (do_register user base_url w) = Raise e ->
  do_register user base_url w
  = (Raise (HTTPException HTTP_500_INTERNAL_SERVER_ERROR "Internal server error"), w).
Proof.
  repeat progress unfold_handlers. cbv beta.
  split_cases; simpl; intros H; try discriminate H; reflexivity.
Qed.

(** X5: registration is all or nothing.  Whatever the store holds, the
    handler either raises the 500 "Internal server error" and leaves the
    world exactly as it was, or returns the new unverified row, which it
    has appended to the table with the hashed password, and has queued
    exactly one verification mail to that row's address; the second case
    only happens when no row had the e-mail or the username. *)
Theorem register_user_all_or_nothing (user : UserCreate) (base_url : string) (w : World) :
  do_register user base_url w
  = (Raise (HTTPException HTTP_500_INTERNAL_SERVER_ERROR "Internal server error"), w)
  \/ (let u := mkUser (next_user_id w) (uc_username user) (uc_email user)
                      (get_password_hash (uc_password user)) (now w) false
                      (avatar_for (uc_email user)) in
      do_register user base_url w
      = (Return u,
         mkWorld (users w ++ [u]) (contacts w) (next_user_id w + 1) (next_contact_id w)
                 (background_tasks w ++ [send_email (email u) (username u) base_url])
                 (now w) (today w))
      /\ forall v, In v (users w) ->
                   email v <> uc_email user /\ username v <> uc_username user).
Proof.
  repeat progress unfold_handlers. cbv beta.
  split_cases; simpl; try (left; reflexivity).
  right. split; [reflexivity|].
  match goal with
  | H : UserRepository.violates_unique _ _ = false |- _ =>
      exact (proj1 (violates_unique_false_iff _ _) H)
  end.
Qed.

(** X6: a registration that has succeeded cannot be repeated: any later
    registration with the same e-mail or the same username, whatever else
    it carries, is answered by the 500 and writes nothing. *)
Theorem register_user_not_repeatable
        (user again : UserCreate) (base_url base_url' : string) (w w1 : World) (u : User) :
  do_register user base_url w = (Return u, w1) ->
  uc_email again = uc_email user \/ uc_username again = uc_username user ->
  do_register again base_url' w1
  = (Raise (HTTPException HTTP_500_INTERNAL_SERVER_ERROR "Internal server error"), w1).
Proof.
  intros Hfirst Hsame.
  destruct (register_user_returned user base_url w w1 u Hfirst) as [Hu [Hw _]].
  destruct (do_register again base_url' w1) as [[u2|e] w2] eqn:E2.
  - exfalso.
    destruct (register_user_returned again base_url' w1 w2 u2 E2) as [Hu2 [_ Hfree]].
    assert (Hin : In u (users w1)).
    { rewrite Hw. simpl. apply in_or_app. right. left. reflexivity. }
    destruct (proj1 (violates_unique_false_iff u2 (users w1)) Hfree u Hin) as [He Hn].
    rewrite Hu2 in He, Hn. rewrite Hu in He, Hn. simpl in He, Hn.
    destruct Hsame as [E|E]; rewrite E in *; contradiction.
  - rewrite <- E2. apply (register_user_raised again base_url' w1 e).
    rewrite E2. reflexivity.
Qed.

(** X7: login is read-only and sound.  It never changes the world; when it
    returns, the token is a bearer token issued for the username of a row
    of the table that is verified and whose stored hash verifies the
    submitted password; when it raises, it is a 401 or the lookup's
    [MultipleResultsFound]. *)
Theorem login_user_sound (form_data : OAuth2PasswordRequestForm) (w : World) :
  snd (do_login form_data w) = w
  /\ (forall t, fst (do_login form_data w) = Return t ->
                token_type t = "bearer"
                /\ exists u, In u (users w)
                             /\ username u = form_username form_data
                             /\ is_verified u = true
                             /\ verify_password (form_password form_data)
                                                (hashed_password u) = true
                             /\ access_token t
                                = issue settings sign (now w) (mkClaims (username u))
                                        (JWT_EXPIRATION_SECONDS settings))
  /\ (forall e, fst (do_login form_data w) = Raise e ->
                e = MultipleResultsFound
                \/ exists d, e = HTTPException HTTP_401_UNAUTHORIZED d).
Proof.
  repeat progress unfold_handlers. cbv beta.
  split_cases; simpl; (split; [reflexivity|]);
    (split; [intros t Ht | intros e He]);
    try discriminate;
    try (injection He as <-; first [left; reflexivity | right; eexists; reflexivity]).
  injection Ht as <-. split; [reflexivity|].
  match goal with
  | H : filter _ (users w) = [?u] |- _ =>
      exists u;
      destruct (filter_key_some_in User string username String.eqb String.eqb_eq
                  _ _ _ _ H) as [Hin Hname]
  end.
  repeat match goal with
         | H : negb _ = false |- _ => apply negb_false_iff in H
         end.
  auto.
Qed.

End Flows.

Lemma register_user_all_or_nothing_witness :
  let dave := mkUser 3 "dave" "dave@x.com" (example_hash "secret3") 2000 false None in
  register_user example_hash example_avatar
                (mkUserCreate "dave" "dave@x.com" "secret3") "http://testserver/"
                example_world
  = (Return dave,
     mkWorld [alice; carol; dave] (contacts example_world) 4 4
             [send_email "dave@x.com" "dave" "http://testserver/"] 2000
             (mkDate 2024 12 29)).
Proof.
  intros dave.
  destruct (register_user_all_or_nothing example_hash example_avatar
              (mkUserCreate "dave" "dave@x.com" "secret3") "http://testserver/"
              example_world) as [Hfail | [Hok _]].
  - vm_compute in Hfail. discriminate Hfail.
  - rewrite Hok. reflexivity.
Defined.

Lemma register_user_not_repeatable_witness :
  let w1 := snd (register_user example_hash example_avatar
                               (mkUserCreate "dave" "dave@x.com" "secret3")
                               "http://testserver/" example_world) in
  register_user example_hash example_avatar
                (mkUserCreate "david" "dave@x.com" "other-password") "http://testserver/"
                w1
  = (Raise (HTTPException 500 "Internal server error"), w1).
Proof.
  intros w1.
  apply (register_user_not_repeatable example_hash example_avatar
           (mkUserCreate "dave" "dave@x.com" "secret3")
           (mkUserCreate "david" "dave@x.com" "other-password")
           "http://testserver/" "http://testserver/" example_world w1
           (mkUser 3 "dave" "dave@x.com" (example_hash "secret3") 2000 false None)).
  - reflexivity.
  - left. reflexivity.
Defined.

Lemma login_user_sound_witness :
  exists t u,
    fst (login_user example_settings example_sign example_verify
                    (mkForm "alice" "secret1") example_world) = Return t
    /\ In u (users example_world) /\ is_verified u = true
    /\ sub (tok_claims (access_token t)) = "alice".
Proof.
  destruct (login_user_sound example_settings example_sign example_verify
              (mkForm "alice" "secret1") example_world) as [_ [Hret _]].
  destruct (Hret _ eq_refl) as [_ [u [Hin [Hname [Hver [_ Htok]]]]]].
  eexists. exists u. split; [reflexivity|]. split; [exact Hin|]. split; [exact Hver|].
  reflexivity.
Defined.

Section Onboarding.

Variable settings : Settings.
Variable sign : string -> string -> Claims -> Z -> string.
Variable get_password_hash : string -> string.
Variable verify_password : string -> string -> bool.
Variable avatar_for : string -> option string.

(** X8: a user who has just registered is refused at login, 401, whatever
    password is sent; once the handler [confirmed_email] has been run with
    a token that decodes to the registered e-mail, login with that username
    is answered 200 with a bearer token for it exactly for the passwords
    that verify against the hash stored at registration, and 401
    "Incorrect login or password" for the others. *)
Theorem fresh_user_must_confirm_before_login
        (user : UserCreate) (base_url : string) (token : TokenString)
        (w w1 : World) (u : User) :
  users_wf w ->
  register_user get_password_hash avatar_for user base_url w = (Return u, w1) ->
  decode settings sign (now w1) token = Return (mkClaims (uc_email user)) ->
  (forall password,
      status (post_login settings sign verify_password
                         (mkForm (uc_username user) password) w1)
      = HTTP_401_UNAUTHORIZED)
  /\ exists w2,
       confirmed_email settings sign token w1 = (Return "Email verified successfully", w2)
       /\ forall password,
           post_login settings sign verify_password
                      (mkForm (uc_username user) password) w2
           = if verify_password password (get_password_hash (uc_password user))
             then mkResponse HTTP_200_OK
                    (JsonToken
                       (mkToken (issue settings sign (now w2)
                                       (mkClaims (uc_username user))
                                       (JWT_EXPIRATION_SECONDS settings))
                                "bearer"))
             else mkResponse HTTP_401_UNAUTHORIZED
                    (JsonDetail "Incorrect login or password").
Proof.
  intros Hwf Hreg Hdec.
  destruct (register_user_returned get_password_hash avatar_for user base_url w w1 u Hreg)
    as [Hu [Hw Hfree]].
  assert (Hwf1 : users_wf w1).
  { eapply (users_wf_append u w w1); [| | | exact Hfree | exact Hwf].
    - rewrite Hw. reflexivity.
    - rewrite Hw. reflexivity.
    - rewrite Hu. reflexivity. }
  destruct Hwf1 as [Hids1 [Hmails1 [Hnames1 _]]].
  assert (Hin1 : In u (users w1)).
  { rewrite Hw. simpl. apply in_or_app. right. left. reflexivity. }
  assert (Hname : username u = uc_username user) by (rewrite Hu; reflexivity).
  assert (Hmail : email u = uc_email user) by (rewrite Hu; reflexivity).
  assert (Hflag : is_verified u = false) by (rewrite Hu; reflexivity).
  assert (Hhash : hashed_password u = get_password_hash (uc_password user))
    by (rewrite Hu; reflexivity).
  split.
  - intros password. unfold post_login.
    rewrite (login_user_present settings sign verify_password
               (mkForm (uc_username user) password) w1 u Hnames1 Hin1 Hname).
    rewrite Hflag. destruct (verify_password _ _); reflexivity.
  - rewrite <- Hmail in Hdec.
    rewrite (confirmed_email_known settings sign token w1 u Hmails1 Hdec Hin1), Hflag.
    eexists. split; [reflexivity|]. intros password.
    set (u' := UserRepository.set_is_verified true u).
    set (w2 := set_users _ w1).
    assert (Hin2 : In u' (users w2)).
    { unfold w2. simpl. apply update_row_member; [exact Hin1 | reflexivity]. }
    assert (Hnames2 : NoDup (map username (users w2))).
    { unfold w2. simpl. rewrite update_row_usernames; [exact Hnames1 | reflexivity]. }
    unfold post_login.
    rewrite (login_user_present settings sign verify_password
               (mkForm (uc_username user) password) w2 u' Hnames2 Hin2 Hname).
    simpl. rewrite Hhash, Hname.
    destruct (verify_password _ _); reflexivity.
Qed.

End Onboarding.

(** [dave] registers on [example_world]; his first login is refused, and
    after his confirmation the right password opens a session. *)
Lemma fresh_user_must_confirm_before_login_witness :
  let w1 := snd (register_user example_hash example_avatar
                               (mkUserCreate "dave" "dave@x.com" "secret3")
                               "http://testserver/" example_world) in
  let token := issue example_settings example_sign 2000 (mkClaims "dave@x.com") 86400 in
  status (post_login example_settings example_sign example_verify
                     (mkForm "dave" "secret3") w1) = 401
  /\ exists w2,
       confirmed_email example_settings example_sign token w1
       = (Return "Email verified successfully", w2)
       /\ status (post_login example_settings example_sign example_verify
                             (mkForm "dave" "secret3") w2) = 200
       /\ status (post_login example_settings example_sign example_verify
                             (mkForm "dave" "guess") w2) = 401.
Proof.
  intros w1 token.
  destruct (fresh_user_must_confirm_before_login example_settings example_sign
              example_hash example_verify example_avatar
              (mkUserCreate "dave" "dave@x.com" "secret3") "http://testserver/" token
              example_world w1
              (mkUser 3 "dave" "dave@x.com" (example_hash "secret3") 2000 false None)
              example_world_wf eq_refl eq_refl) as [Hrefused [w2 [Hc Hlogin]]].
  split; [apply Hrefused|].
  exists w2. split; [exact Hc|]. split.
  - rewrite Hlogin. reflexivity.
  - rewrite Hlogin. reflexivity.
Defined.

(** X9: [request_email] never touches the tables and never answers with an
    error of its own; it queues at most one mail, and when it does, the
    mail goes to the address and name of a row of the table that has the
    requested e-mail and is not verified.  An unknown address and the
    address of a verified user queue nothing. *)
Theorem request_email_only_mails_unverified
        (body : RequestEmail) (base_url : string) (w : World) :
  let out := request_email body base_url w in
  users (snd out) = users w
  /\ contacts (snd out) = contacts w
  /\ (forall s d, fst out <> Raise (HTTPException s d))
  /\ (background_tasks (snd out) = background_tasks w
      \/ exists u, In u (users w) /\ email u = re_email body /\ is_verified u = false
                   /\ background_tasks (snd out)
                      = (background_tasks w
                         ++ [send_email (email u) (username u) base_url])%list).
Proof.
  repeat progress unfold_handlers. cbv beta.
  split_cases; simpl; (split; [reflexivity|]); (split; [reflexivity|]);
    (split; [intros s d; discriminate|]);
    try (left; reflexivity).
  right.
  match goal with
  | H : filter _ (users w) = [?u] |- _ =>
      exists u;
      destruct (filter_key_some_in User string email String.eqb String.eqb_eq
                  _ _ _ _ H) as [Hin Hmail]
  end.
  auto.
Qed.

Lemma request_email_only_mails_unverified_witness :
  background_tasks (snd (request_email (mkRequestEmail "carol@x.com")
                                       "http://testserver/" example_world))
  = [send_email "carol@x.com" "carol" "http://testserver/"]
  /\ background_tasks (snd (request_email (mkRequestEmail "alice@x.com")
                                          "http://testserver/" example_world)) = [].
Proof.
  split.
  - destruct (request_email_only_mails_unverified (mkRequestEmail "carol@x.com")
                "http://testserver/" example_world) as [_ [_ [_ [H | [u [_ [_ [_ H]]]]]]]];
      reflexivity.
  - destruct (request_email_only_mails_unverified (mkRequestEmail "alice@x.com")
                "http://testserver/" example_world) as [_ [_ [_ [H | [u [_ [_ [_ H]]]]]]]];
      reflexivity.
Defined.

(* ================================================================== *)
(** * Further properties of the writes to a user *)

Lemma set_users_same (w : World) : set_users (users w) w = w.
Proof. destruct w. reflexivity. Qed.

Lemma rewrite_absent_email (m : string) (f : User -> User) (us : list User) :
  (forall v, In v us -> email v <> m) ->
  map (fun v => if String.eqb (email v) m then f v else v) us = us.
Proof.
  intros Habs. rewrite <- (map_id us) at 2. apply map_ext_in. intros v Hv.
  destruct (String.eqb (email v) m) eqn:E; [|reflexivity].
  apply String.eqb_eq in E. exfalso. exact (Habs v Hv E).
Qed.

Lemma update_row_by_email (u : User) (f : User -> User) (us : list User) :
  NoDup (map user_id_ us) -> NoDup (map email us) -> In u us ->
  UserRepository.update_row (user_id_ u) f us
  = map (fun v => if String.eqb (email v) (email u) then f v else v) us.
Proof.
  intros Hids Hmails Hin. unfold UserRepository.update_row. apply map_ext_in.
  intros v Hv.
  destruct (user_id_ v =? user_id_ u) eqn:Ei; destruct (String.eqb (email v) (email u)) eqn:Ee;
    try reflexivity; exfalso.
  - apply Z.eqb_eq in Ei. apply String.eqb_neq in Ee. apply Ee.
    rewrite (unique_key_injective User Z user_id_ Z.eqb Z.eqb_eq v u us Hids Hv Hin Ei).
    reflexivity.
  - apply String.eqb_eq in Ee. apply Z.eqb_neq in Ei. apply Ei.
    rewrite (unique_key_injective User string email String.eqb String.eqb_eq v u us
               Hmails Hv Hin Ee).
    reflexivity.
Qed.

Lemma update_avatar_url_present (u : User) (url : string) (w : World) :
  NoDup (map user_id_ (users w)) -> NoDup (map email (users w)) -> In u (users w) ->
  UserRepository.update_avatar_url (email u) url w
  = (Return (Some (UserRepository.set_avatar_url (Some url) u)),
     set_users (UserRepository.update_row (user_id_ u)
                  (UserRepository.set_avatar_url (Some url)) (users w)) w).
Proof.
  intros Hids Hmails Hin.
  set (f := UserRepository.set_avatar_url (Some url)).
  set (us' := UserRepository.update_row (user_id_ u) f (users w)).
  assert (Hin' : In (f u) us') by (apply update_row_member; [exact Hin | reflexivity]).
  assert (Hids' : NoDup (map user_id_ us')).
  { unfold us'. rewrite update_row_ids; [exact Hids | intros v; reflexivity]. }
  assert (Hrefresh : filter (fun v => user_id_ v =? user_id_ u) us' = [f u]).
  { exact (filter_key_unique User Z user_id_ Z.eqb Z.eqb_eq (f u) us' Hids' Hin'). }
  unfold UserRepository.update_avatar_url, bind at 1.
  rewrite (get_user_by_email_present u w Hmails Hin).
  run_handler. fold f. fold us'. rewrite Hrefresh. reflexivity.
Qed.

Lemma confirmed_email_by_email (m : string) (w : World) :
  users_wf w ->
  snd (UserRepository.confirmed_email m w)
  = set_users (map (fun v => if String.eqb (email v) m
                             then UserRepository.set_is_verified true v else v)
                   (users w)) w.
Proof.
  intros [Hids [Hmails _]].
  destruct (user_by_key_decide email m (users w)) as [Habs | [u [Hin He]]].
  - unfold UserRepository.confirmed_email, bind at 1.
    rewrite (get_user_by_email_absent m w Habs). simpl.
    rewrite rewrite_absent_email by exact Habs. rewrite set_users_same. reflexivity.
  - subst m. unfold UserRepository.confirmed_email, bind at 1.
    rewrite (get_user_by_email_present u w Hmails Hin). run_handler.
    rewrite (update_row_by_email u _ (users w) Hids Hmails Hin). reflexivity.
Qed.

Lemma update_avatar_url_by_email (m url : string) (w : World) :
  users_wf w ->
  snd (UserRepository.update_avatar_url m url w)
  = set_users (map (fun v => if String.eqb (email v) m
                             then UserRepository.set_avatar_url (Some url) v else v)
                   (users w)) w.
Proof.
  intros [Hids [Hmails _]].
  destruct (user_by_key_decide email m (users w)) as [Habs | [u [Hin He]]].
  - unfold UserRepository.update_avatar_url, bind at 1.
    rewrite (get_user_by_email_absent m w Habs). simpl.
    rewrite rewrite_absent_email by exact Habs. rewrite set_users_same. reflexivity.
  - subst m. rewrite (update_avatar_url_present u url w Hids Hmails Hin). simpl.
    rewrite (update_row_by_email u _ (users w) Hids Hmails Hin). reflexivity.
Qed.

Lemma users_wf_by_email (m : string) (f : User -> User) (w : World) :
  (forall v, user_id_ (f v) = user_id_ v) ->
  (forall v, email (f v) = email v) ->
  (forall v, username (f v) = username v) ->
  users_wf w ->
  users_wf (set_users (map (fun v => if String.eqb (email v) m then f v else v)
                           (users w)) w).
Proof.
  intros Hid He Hn [H1 [H2 [H3 H4]]]. unfold users_wf. simpl. rewrite !map_map.
  assert (Ei : map (fun v => user_id_ (if String.eqb (email v) m then f v else v)) (users w)
               = map user_id_ (users w)).
  { apply map_ext. intros v. destruct (String.eqb (email v) m); [apply Hid | reflexivity]. }
  assert (Ee : map (fun v => email (if String.eqb (email v) m then f v else v)) (users w)
               = map email (users w)).
  { apply map_ext. intros v. destruct (String.eqb (email v) m); [apply He | reflexivity]. }
  assert (En : map (fun v => username (if String.eqb (email v) m then f v else v)) (users w)
               = map username (users w)).
  { apply map_ext. intros v. destruct (String.eqb (email v) m); [apply Hn | reflexivity]. }
  rewrite Ei, Ee, En. repeat (split; [assumption|]).
  apply Forall_map. apply Forall_impl with (2 := H4). intros v Hv.
  destruct (String.eqb (email v) m); [rewrite Hid|]; exact Hv.
Qed.

(** X10: on a table that satisfies its constraints, [confirmed_email] and
    [update_avatar_url] rewrite exactly the rows that have the given
    e-mail, the first setting [is_verified], the second [avatar_url], and
    leave every other row and everything else in the world as it was; for
    an e-mail nobody has they change nothing. *)
Theorem user_writes_by_email (m url : string) (w : World) :
  users_wf w ->
  snd (UserRepository.confirmed_email m w)
  = set_users (map (fun v => if String.eqb (email v) m
                             then UserRepository.set_is_verified true v else v)
                   (users w)) w
  /\ snd (UserRepository.update_avatar_url m url w)
     = set_users (map (fun v => if String.eqb (email v) m
                                then UserRepository.set_avatar_url (Some url) v else v)
                      (users w)) w
  /\ ((forall v, In v (users w) -> email v <> m) ->
      snd (UserRepository.confirmed_email m w) = w
      /\ snd (UserRepository.update_avatar_url m url w) = w).
Proof.
  intros Hwf. split; [|split].
  - apply confirmed_email_by_email. exact Hwf.
  - apply update_avatar_url_by_email. exact Hwf.
  - intros Habs.
    rewrite (confirmed_email_by_email m w Hwf), (update_avatar_url_by_email m url w Hwf).
    rewrite !rewrite_absent_email by exact Habs. rewrite set_users_same. auto.
Qed.

Lemma user_writes_by_email_witness :
  users (snd (UserRepository.confirmed_email "carol@x.com" example_world))
  = [alice; UserRepository.set_is_verified true carol]
  /\ snd (UserRepository.update_avatar_url "zed@x.com" "http://img/z.png" example_world)
     = example_world.
Proof.
  destruct (user_writes_by_email "carol@x.com" "" example_world example_world_wf)
    as [Hc _].
  destruct (user_writes_by_email "zed@x.com" "http://img/z.png" example_world
              example_world_wf) as [_ [_ Habs]].
  split.
  - rewrite Hc. reflexivity.
  - apply Habs. simpl. intros v [<-|[<-|[]]]; simpl; discriminate.
Defined.

(** X11: on a table that satisfies its constraints, confirming one e-mail
    and setting the avatar of another (or of the same) give the same world
    in either order; of two avatar updates for one e-mail the later one
    wins; and after an avatar update the lookup by that e-mail returns the
    user with the new avatar. *)
Theorem user_writes_commute (m1 m2 url url' : string) (w : World) :
  users_wf w ->
  snd (UserRepository.confirmed_email m1
         (snd (UserRepository.update_avatar_url m2 url w)))
  = snd (UserRepository.update_avatar_url m2 url
           (snd (UserRepository.confirmed_email m1 w)))
  /\ snd (UserRepository.update_avatar_url m2 url'
            (snd (UserRepository.update_avatar_url m2 url w)))
     = snd (UserRepository.update_avatar_url m2 url' w)
  /\ (forall u, In u (users w) -> email u = m2 ->
        UserRepository.get_user_by_email m2
          (snd (UserRepository.update_avatar_url m2 url w))
        = (Return (Some (UserRepository.set_avatar_url (Some url) u)),
           snd (UserRepository.update_avatar_url m2 url w))).
Proof.
  intros Hwf.
  assert (Hwf_a : forall x, users_wf (snd (UserRepository.update_avatar_url m2 x w))).
  { intros x. rewrite (update_avatar_url_by_email m2 x w Hwf).
    apply users_wf_by_email; [intros; reflexivity .. | exact Hwf]. }
  assert (Hwf_c : users_wf (snd (UserRepository.confirmed_email m1 w))).
  { rewrite (confirmed_email_by_email m1 w Hwf).
    apply users_wf_by_email; [intros; reflexivity .. | exact Hwf]. }
  split; [|split].
  - rewrite (confirmed_email_by_email m1 _ (Hwf_a url)).
    rewrite (update_avatar_url_by_email m2 url _ Hwf_c).
    rewrite (update_avatar_url_by_email m2 url w Hwf).
    rewrite (confirmed_email_by_email m1 w Hwf).
    unfold set_users. simpl. f_equal. rewrite !map_map. apply map_ext. intros v.
    destruct (String.eqb (email v) m2) eqn:E2; destruct (String.eqb (email v) m1) eqn:E1;
      simpl; rewrite ?E1, ?E2; reflexivity.
  - rewrite (update_avatar_url_by_email m2 url' _ (Hwf_a url)).
    rewrite (update_avatar_url_by_email m2 url w Hwf).
    rewrite (update_avatar_url_by_email m2 url' w Hwf).
    unfold set_users. simpl. f_equal. rewrite !map_map. apply map_ext. intros v.
    destruct (String.eqb (email v) m2) eqn:E2; simpl; rewrite ?E2; reflexivity.
  - intros u Hin He. subst m2.
    destruct (Hwf_a url) as [_ [Hmails' _]].
    replace (email u) with (email (UserRepository.set_avatar_url (Some url) u)) at 1
      by reflexivity.
    apply get_user_by_email_present; [exact Hmails'|].
    rewrite (update_avatar_url_by_email (email u) url w Hwf). simpl.
    apply in_map_iff. exists u. split; [|exact Hin].
    rewrite String.eqb_refl. reflexivity.
Qed.

Lemma user_writes_commute_witness :
  snd (UserRepository.confirmed_email "carol@x.com"
         (snd (UserRepository.update_avatar_url "carol@x.com" "http://img/c.png"
                 example_world)))
  = snd (UserRepository.update_avatar_url "carol@x.com" "http://img/c.png"
           (snd (UserRepository.confirmed_email "carol@x.com" example_world))).
Proof.
  apply (user_writes_commute "carol@x.com" "carol@x.com" "http://img/c.png" ""
           example_world example_world_wf).
Defined.

(* ================================================================== *)
(** * Further properties of the validators *)

Lemma append_assoc (a b c : string) : ((a ++ b) ++ c = a ++ (b ++ c))%string.
Proof. induction a as [|x a IH]; simpl; [reflexivity | rewrite IH; reflexivity]. Qed.

Lemma append_empty_r (a : string) : (a ++ "" = a)%string.
Proof. induction a as [|x a IH]; simpl; [reflexivity | rewrite IH; reflexivity]. Qed.

Lemma phone_field_ok_unfold (value : string) :
  phone_field_ok value = true
  <-> (7 <= len value <= 20) /\ re_match phone_regex value = true.
Proof.
  unfold phone_field_ok, validate_phone, length_between.
  rewrite !andb_true_iff, !Z.leb_le. tauto.
Qed.

(** X12: the phone validator lets one line feed through: a value the
    field accepts and that does not itself end in a line feed is still
    accepted with a line feed appended, because [$] also matches just
    before a final newline and the length stays within the field's
    bounds. *)
Theorem phone_accepts_trailing_newline (value : string) :
  phone_field_ok value = true ->
  (forall p, value <> (p ++ String newline "")%string) ->
  validate_phone (value ++ String newline "") = true
  /\ phone_field_ok (value ++ String newline "") = true.
Proof.
  intros Hok Hend. apply phone_field_ok_unfold in Hok. destruct Hok as [Hlen Hm].
  assert (Hfmt : international_format (value ++ String newline "")).
  { apply phone_regex_language in Hm.
    destruct Hm as [plus [first [rest [tail [Hv [Hp [Hf [Hd [Hl Ht]]]]]]]]].
    destruct Ht as [-> | ->].
    - exists plus, first, rest, (String newline ""). rewrite Hv.
      rewrite append_empty_r, append_assoc. simpl. auto 10.
    - exfalso. apply (Hend (plus ++ String first rest)%string).
      rewrite Hv, append_assoc. reflexivity. }
  assert (Hm' : re_match phone_regex (value ++ String newline "") = true)
    by (apply phone_regex_language; exact Hfmt).
  split; [exact Hm'|].
  apply phone_field_ok_unfold. split; [|exact Hm'].
  apply international_format_length in Hfmt.
  unfold len in *. rewrite length_append in *. simpl in *. lia.
Qed.

Lemma phone_accepts_trailing_newline_witness :
  phone_field_ok ("+380501234567" ++ String newline "") = true.
Proof.
  apply (phone_accepts_trailing_newline "+380501234567"); [reflexivity|].
  intros p H.
  do 14 (destruct p as [|? p]; [simpl in H; discriminate H|]).
  simpl in H. discriminate H.
Defined.

(** X13: the birthday validator accepts today's date itself, accepts a
    date exactly when it is not after today, and a birthday accepted on
    one day is accepted on every later day. *)
Theorem validate_birthday_monotone (today_ later value : date) :
  validate_birthday today_ today_ = true
  /\ (validate_birthday today_ value = true <-> date_le value today_)
  /\ (validate_birthday today_ value = true -> date_le today_ later ->
      validate_birthday later value = true).
Proof.
  assert (H : forall t v, validate_birthday t v = true <-> date_le v t).
  { intros t v. unfold validate_birthday, date_le.
    rewrite negb_true_iff, <- date_gtb_true_iff.
    destruct (date_gtb v t); split; congruence. }
  split; [|split].
  - apply H. unfold date_le, date_after. lia.
  - apply H.
  - rewrite !H. unfold date_le, date_after. lia.
Qed.

Lemma validate_birthday_monotone_witness :
  validate_birthday (mkDate 2025 1 1) (mkDate 2024 12 29) = true.
Proof.
  destruct (validate_birthday_monotone (mkDate 2024 12 29) (mkDate 2025 1 1)
              (mkDate 2024 12 29)) as [Htoday [_ Hlater]].
  apply Hlater; [exact Htoday|]. unfold date_le, date_after. simpl. lia.
Defined.

Section Columns.

Variable email_syntax_ok : string -> bool.

(** X14: whatever the request models let through fits the columns of the
    migration: a validated contact body respects the lengths of [name],
    [surname], [email], [phone] and [info] of table [contacts], and a
    validated registration respects the length of [username] of table
    [users]. *)
Theorem validated_bodies_fit_columns (today_ : date) (b : ContactModel) (uc : UserCreate) :
  (ContactModel_ok email_syntax_ok today_ b = true ->
   fits contacts_table "name" (m_name b)
   /\ fits contacts_table "surname" (m_surname b)
   /\ fits contacts_table "email" (m_email b)
   /\ fits contacts_table "phone" (m_phone b)
   /\ forall i, m_info b = Some i -> fits contacts_table "info" i)
  /\ (UserCreate_ok email_syntax_ok uc = true ->
      fits users_table "username" (uc_username uc)).
Proof.
  split.
  - unfold ContactModel_ok, phone_field_ok, length_between, len.
    rewrite !andb_true_iff, !Z.leb_le.
    intros [[[[[Hn Hs] [He _]] [Hp _]] _] Hi].
    unfold fits. simpl.
    repeat (split; [lia|]).
    intros i Ei. rewrite Ei in Hi. apply Z.leb_le in Hi. lia.
  - unfold UserCreate_ok, length_between, len.
    rewrite !andb_true_iff, !Z.leb_le. intros [[Hn _] _].
    unfold fits. simpl. lia.
Qed.

End Columns.

Lemma validated_bodies_fit_columns_witness :
  fits contacts_table "phone" "+15551234567"
  /\ fits users_table "username" "alice".
Proof.
  destruct (validated_bodies_fit_columns example_email_ok (mkDate 2024 12 29)
              (mkContactModel "Bob" "Lee" "bob@x.com" "+15551234567" (mkDate 1990 5 1)
                              None 1)
              (mkUserCreate "alice" "alice@x.com" "secret1")) as [Hc Hu].
  split.
  - apply Hc. reflexivity.
  - apply Hu. reflexivity.
Defined.

(* ================================================================== *)
(** * The migration and the database URL *)

Lemma has_table_app (name : string) (a b : Schema) :
  has_table name (a ++ b)%list = has_table name a || has_table name b.
Proof. unfold has_table. apply existsb_app. Qed.

Lemma keep_other_tables (name : string) (s : Schema) :
  has_table name s = false ->
  filter (fun t => negb (String.eqb (table_name t) name)) s = s.
Proof.
  unfold has_table. induction s as [|t s IH]; simpl; [reflexivity|].
  intros H. apply orb_false_iff in H. destruct H as [Ht Hs].
  rewrite Ht. simpl. rewrite IH; [reflexivity | exact Hs].
Qed.

Lemma nothing_references (name : string) (s : Schema) :
  (forall t, In t s -> references name t = false) ->
  existsb (fun t => negb (String.eqb (table_name t) name) && references name t) s = false.
Proof.
  intros H. apply not_true_is_false. intros Hex. apply existsb_exists in Hex.
  destruct Hex as [t [Hin Ht]]. apply andb_true_iff in Ht. destruct Ht as [_ Hr].
  rewrite (H t Hin) in Hr. discriminate.
Qed.

(** X15: on a schema that has no table [users] or [contacts] and whose
    tables reference neither, [upgrade] adds the two tables, [users] first,
    and [downgrade] then gives the schema back; after the upgrade [users]
    alone cannot be dropped, since [contacts] references it, and the
    upgrade cannot be run a second time. *)
Theorem migration_round_trip (s : Schema) :
  has_table "users" s = false ->
  has_table "contacts" s = false ->
  (forall t, In t s -> references "users" t = false /\ references "contacts" t = false) ->
  upgrade s = Some (s ++ [users_table; contacts_table])%list
  /\ downgrade (s ++ [users_table; contacts_table])%list = Some s
  /\ drop_table "users" (s ++ [users_table; contacts_table])%list = None
  /\ upgrade (s ++ [users_table; contacts_table])%list = None.
Proof.
  intros Hu Hc Href.
  assert (Hru : forall t, In t s -> references "users" t = false)
    by (intros t Ht; apply (Href t Ht)).
  assert (Hrc : forall t, In t s -> references "contacts" t = false)
    by (intros t Ht; apply (Href t Ht)).
  split; [|split; [|split]].
  - unfold upgrade, create_table. simpl table_name. rewrite Hu. simpl.
    rewrite !has_table_app, Hu, Hc. simpl. rewrite <- app_assoc. reflexivity.
  - unfold downgrade, drop_table.
    rewrite has_table_app, Hc. simpl.
    rewrite existsb_app, (nothing_references "contacts" s Hrc). simpl.
    rewrite filter_app, (keep_other_tables "contacts" s Hc). simpl.
    rewrite has_table_app, Hu. simpl.
    rewrite existsb_app, (nothing_references "users" s Hru). simpl.
    rewrite filter_app, (keep_other_tables "users" s Hu). simpl.
    rewrite app_nil_r. reflexivity.
  - unfold drop_table. rewrite has_table_app, Hu. simpl.
    rewrite existsb_app. simpl. rewrite orb_true_r. reflexivity.
  - unfold upgrade, create_table. simpl table_name.
    rewrite has_table_app, Hu. simpl. reflexivity.
Qed.

Lemma migration_round_trip_witness :
  upgrade [] = Some [users_table; contacts_table]
  /\ downgrade [users_table; contacts_table] = Some [].
Proof.
  destruct (migration_round_trip []) as [Hup [Hdown _]];
    [reflexivity | reflexivity | intros t [] |].
  split; [exact Hup | exact Hdown].
Defined.

Lemma prefix_empty (s : string) : prefix "" s = true.
Proof. destruct s; reflexivity. Qed.

Lemma replace_without_occurrence (old new s : string) :
  occurs_in old s = false -> replace_from old new 0 s = s.
Proof.
  induction s as [|c s IH]; simpl; [reflexivity|].
  intros H. apply orb_false_iff in H. destruct H as [Hp Hs].
  rewrite Hp, (IH Hs). reflexivity.
Qed.

(** X16: the URL handed to the engine always starts with
    [postgresql+asyncpg://]; what follows is the user, password, host, port
    and database name in their places, with [str.replace] applied to them
    too, so they come through unchanged exactly as far as the text
    [postgresql://] does not occur in them. *)
Theorem asyncpg_database_url (s : DatabaseSettings) :
  let tail := (DB_USER s ++ ":" ++ DB_PASSWORD s ++ "@" ++ DB_HOST s
               ++ ":" ++ DB_PORT s ++ "/" ++ DB_NAME s)%string in
  prefix "postgresql+asyncpg://" (SQLALCHEMY_DATABASE_URL s) = true
  /\ SQLALCHEMY_DATABASE_URL s
     = ("postgresql+asyncpg://"
        ++ replace_from "postgresql://" "postgresql+asyncpg://" 0 tail)%string
  /\ (occurs_in "postgresql://" tail = false ->
      SQLALCHEMY_DATABASE_URL s = ("postgresql+asyncpg://" ++ tail)%string).
Proof.
  intros tail.
  assert (E : SQLALCHEMY_DATABASE_URL s
              = ("postgresql+asyncpg://"
                 ++ replace_from "postgresql://" "postgresql+asyncpg://" 0 tail)%string).
  { unfold SQLALCHEMY_DATABASE_URL, str_replace, database_url. fold tail.
    generalize tail. intros t. simpl. rewrite prefix_empty. reflexivity. }
  split; [|split].
  - rewrite E. generalize (replace_from "postgresql://" "postgresql+asyncpg://" 0 tail).
    intros t. simpl. apply prefix_empty.
  - exact E.
  - intros Hno. rewrite E, (replace_without_occurrence _ _ tail Hno). reflexivity.
Qed.

Lemma asyncpg_database_url_witness :
  SQLALCHEMY_DATABASE_URL (mkDatabaseSettings "contacts" "app" "pw" "db" "5432")
  = "postgresql+asyncpg://app:pw@db:5432/contacts".
Proof.
  destruct (asyncpg_database_url
              (mkDatabaseSettings "contacts" "app" "pw" "db" "5432")) as [_ [_ H]].
  apply H. reflexivity.
Defined.

(** A user name and a password that spell the scheme between them are
    rewritten as well. *)
Example database_url_rewrites_credentials :
  SQLALCHEMY_DATABASE_URL (mkDatabaseSettings "contacts" "postgresql" "//pw" "db" "5432")
  = "postgresql+asyncpg://postgresql+asyncpg://pw@db:5432/contacts".
Proof. reflexivity. Qed.
